(** * Double-entry ledger API: balance calculator and transfer orchestrator

    A shallow embedding of [services/ledgerService.js] ([getBalance],
    [transfer]), of the [POST /transfers] route, of the account routes
    ([GET /accounts/:id], [GET /accounts/:id/ledger], the validation of
    [POST /accounts]) and of the error handler of [app.js], over an explicit
    model of the three PostgreSQL tables of
    [prisma/migrations/.../migration.sql].

    What the libraries and the database do is modelled where the code
    depends on it: the arithmetic of decimal.js at its default precision of
    20 significant digits, the binary64 numbers of [toNumber], the
    [DECIMAL(20,8)] columns, and the [uuid] type of the identifier columns,
    which refuses text that is not a UUID and reads a UUID in any letter
    case. *)

From Stdlib Require Import ZArith List String Ascii Bool Lia.
Import ListNotations.
Open Scope string_scope.
Open Scope list_scope.
Open Scope Z_scope.

(** ** Numbers

    Three kinds of numeric values occur in the service:
    - [Decimal.t], the values of decimal.js ([new Decimal(x)]);
    - [Number.t], the primitive numbers of JavaScript (IEEE 754 binary64),
      reached through [Decimal.prototype.toNumber];
    - the [DECIMAL(20,8)] columns of the tables, kept as an integer count of
      units of 10^-8 (so the column value 1.5 is the integer 150000000). *)

Module Decimal.

(** A finite value is [digits * 10^-places]. *)
Inductive t : Type :=
| Finite (digits : Z) (places : nat)
| PosInfinity
| NegInfinity
| NaN.

Definition pow10 (n : nat) : Z := 10 ^ Z.of_nat n.

(** [new Decimal(0)]. *)
Definition zero : t := Finite 0 0.

(** [new Decimal(v)] for [v] read from a [DECIMAL(20,8)] column. *)
Definition ofColumn (units : Z) : t := Finite units 8.

(** [x.cmp(y)]: [None] stands for the NaN answer. *)
Definition cmp (x y : t) : option comparison :=
  match x, y with
  | NaN, _ | _, NaN => None
  | PosInfinity, PosInfinity => Some Eq
  | PosInfinity, _ => Some Gt
  | _, PosInfinity => Some Lt
  | NegInfinity, NegInfinity => Some Eq
  | NegInfinity, _ => Some Lt
  | _, NegInfinity => Some Gt
  | Finite a p, Finite b q => Some (a * pow10 q ?= b * pow10 p)
  end.

Definition lessThan (x y : t) : bool :=
  match cmp x y with Some Lt => true | _ => false end.

Definition lessThanOrEqualTo (x y : t) : bool :=
  match cmp x y with Some Lt | Some Eq => true | _ => false end.


Definition equals (x y : t) : bool :=
  match cmp x y with Some Eq => true | _ => false end.

Definition isNaN (x : t) : bool :=
  match x with NaN => true | _ => false end.

(** *** Arithmetic at the scale of the columns

    The running total of [getBalance] starts at 0 and only ever meets
    amounts read from a [DECIMAL(20,8)] column, so it is kept here as a count
    of 10^-8 units.  decimal.js rounds the result of [plus] and [minus] to
    [precision] significant digits, 20 by default, halves away from zero
    ([rounding] is ROUND_HALF_UP by default); the service never changes
    either setting. *)

(** [n] rounded to a multiple of [place], halves upwards
    ([0 <= n], [0 < place]). *)
Definition roundTo (n place : Z) : Z := (2 * n + place) / (2 * place) * place.

(** The place of the twentieth significant digit of [n]: the least power of
    ten [place], from [place] on, with [n < 10^20 * place]. *)
Fixpoint lastPlace (fuel : nat) (n place : Z) : Z :=
  match fuel with
  | O => place
  | S fuel' =>
      if n <? 10 ^ 20 * place then place else lastPlace fuel' n (10 * place)
  end.

(** [finalise(x, precision, rounding)] on a count of units. *)
Definition finalise (n : Z) : Z :=
  let magnitude := Z.abs n in
  let rounded :=
    roundTo magnitude (lastPlace (Z.to_nat (Z.log2 magnitude)) magnitude 1) in
  if n <? 0 then - rounded else rounded.

(** [x.plus(y)] and [x.minus(y)] on counts of units. *)
Definition plus (x y : Z) : Z := finalise (x + y).

Definition minus (x y : Z) : Z := finalise (x - y).

End Decimal.

Module Number.

(** A finite binary64 value is [m * 2^e]. *)
Inductive t : Type :=
| Finite (m e : Z)
| PosInfinity
| NegInfinity
| NaN.

(** Nearest integer to [p / q], ties to even ([0 <= p], [0 < q]). *)
Definition roundHalfEven (p q : Z) : Z :=
  let k := p / q in
  match 2 * (p mod q) ?= q with
  | Lt => k
  | Gt => k + 1
  | Eq => if Z.even k then k else k + 1
  end.

(** [floor (log2 (n / d))] for [0 < n], [0 < d]. *)
Definition floorLog2 (n d : Z) : Z :=
  let l := Z.log2 n - Z.log2 d in
  let reaches := if 0 <=? l then d * 2 ^ l <=? n else d <=? n * 2 ^ (- l) in
  if reaches then l else l - 1.

(** The binary64 value nearest to [n / d] ([0 < n], [0 < d]), rounding to
    nearest with ties to even: 53 significant bits, exponent at least -1074,
    overflow at 2^1024. *)
Definition nearest (n d : Z) : option (Z * Z) :=
  let e := Z.max (floorLog2 n d - 52) (-1074) in
  let m := if 0 <=? e then roundHalfEven n (d * 2 ^ e)
           else roundHalfEven (n * 2 ^ (- e)) d in
  if (0 <=? e) && (2 ^ 1024 <=? m * 2 ^ e) then None else Some (m, e).

End Number.

(** [d.toNumber()] *)
Definition toNumber (d : Decimal.t) : Number.t :=
  match d with
  | Decimal.NaN => Number.NaN
  | Decimal.PosInfinity => Number.PosInfinity
  | Decimal.NegInfinity => Number.NegInfinity
  | Decimal.Finite digits places =>
      match digits with
      | 0 => Number.Finite 0 0
      | Zpos _ =>
          match Number.nearest digits (Decimal.pow10 places) with
          | Some (m, e) => Number.Finite m e
          | None => Number.PosInfinity
          end
      | Zneg _ =>
          match Number.nearest (- digits) (Decimal.pow10 places) with
          | Some (m, e) => Number.Finite (- m) e
          | None => Number.NegInfinity
          end
      end
  end.

Module Column.

(** Nearest integer to [p / q], ties away from zero ([0 <= p], [0 < q]):
    PostgreSQL's rounding of a [numeric] to the scale of its column. *)
Definition roundHalfAway (p q : Z) : Z := (2 * p + q) / (2 * q).

(** [n / d < 10^k] ([0 <= n], [0 < d]). *)
Definition below (n d k : Z) : bool :=
  if 0 <=? k then n <? d * 10 ^ k else n * 10 ^ (- k) <? d.

(** A place at or below that of the sixteenth significant digit of [n / d]:
    [n / d] is above [2^l] for [l = log2 n - log2 d - 1], and [log10 2] lies
    between 0.30102 and 0.30103. *)
Definition placeBelow (n d : Z) : Z :=
  let l := Z.log2 n - Z.log2 d - 1 in
  (if 0 <=? l then l * 30102 / 100000 else l * 30103 / 100000) - 16.

(** The place of the sixteenth significant digit of [n / d]: the least [q],
    from [q] on, with [n / d < 10^(16 + q)]. *)
Fixpoint sixteenth (fuel : nat) (n d q : Z) : Z :=
  match fuel with
  | O => q
  | S fuel' => if below n d (16 + q) then q else sixteenth fuel' n d (q + 1)
  end.

(** Count of 10^-8 units stored for the number [m * 2^e] ([0 <= m]).  The
    query engine turns a number into a decimal of sixteen significant
    digits, halves to even, and the database rounds that decimal to the
    eight places of the column, halves away from zero. *)
Definition unitsOf (m e : Z) : Z :=
  let n := if 0 <=? e then m * 2 ^ e else m in
  let d := if 0 <=? e then 1 else 2 ^ (- e) in
  let q := sixteenth 8 n d (placeBelow n d) in
  let digits := if 0 <=? q then Number.roundHalfEven n (d * 10 ^ q)
                else Number.roundHalfEven (n * 10 ^ (- q)) d in
  if 0 <=? q + 8 then digits * 10 ^ (q + 8)
  else roundHalfAway digits (10 ^ (- (q + 8))).

(** A JavaScript number written to a [DECIMAL(20,8)] column; a value with
    more than twelve integer digits, an infinity or a NaN is refused by the
    storage layer ([None]). *)
Definition ofNumber (x : Number.t) : option Z :=
  match x with
  | Number.Finite m e =>
      let units := if 0 <=? m then unitsOf m e else - unitsOf (- m) e in
      if Z.abs units <? 10 ^ 20 then Some units else None
  | _ => None
  end.

End Column.

(** ** Identifiers

    The identifier columns have type [uuid].  A request carries an identifier
    as text; the text is read as a UUID in two places, which do not accept
    the same spellings:
    - the lock statement casts its parameter, [$1::uuid], in the database;
    - the queries the client builds ([findUnique], [findMany], [count],
      [create], [update]) bind the text to a [uuid] parameter in the client,
      which refuses a text it cannot read before anything is executed.
    Both read the usual spelling, 8-4-4-4-12 hexadecimal digits, in either
    letter case.  A UUID is kept as the text the database renders it with:
    that spelling in lower case. *)

Module Uuid.

Definition isHexDigit (c : ascii) : bool :=
  let n := nat_of_ascii c in
  (((48 <=? n) && (n <=? 57)) || ((97 <=? n) && (n <=? 102))
   || ((65 <=? n) && (n <=? 70)))%nat.

(** A hexadecimal digit in lower case. *)
Definition lower (c : ascii) : ascii :=
  let n := nat_of_ascii c in
  if ((65 <=? n) && (n <=? 70))%nat then ascii_of_nat (n + 32) else c.

(** Hyphens put after groups of the given sizes. *)
Fixpoint group (sizes : list nat) (digits : list ascii) : list ascii :=
  match sizes with
  | [] => digits
  | n :: sizes' => firstn n digits ++ "-"%char :: group sizes' (skipn n digits)
  end.

(** The hyphens taken out again: [None] when one is missing. *)
Fixpoint ungroup (sizes : list nat) (chars : list ascii) : option (list ascii) :=
  match sizes with
  | [] => Some chars
  | n :: sizes' =>
      match skipn n chars with
      | c :: rest =>
          if (c =? "-")%char
          then match ungroup sizes' rest with
               | Some digits => Some (firstn n chars ++ digits)
               | None => None
               end
          else None
      | [] => None
      end
  end.

(** The text of the UUID with the given 32 hexadecimal digits. *)
Definition render (digits : list ascii) : string :=
  string_of_list_ascii (group [8; 4; 4; 4]%nat (map lower digits)).

Definition simple (chars : list ascii) : option string :=
  if ((List.length chars =? 32)%nat && forallb isHexDigit chars)%bool
  then Some (render chars) else None.

Definition hyphenated (chars : list ascii) : option string :=
  match ungroup [8; 4; 4; 4]%nat chars with
  | Some digits => simple digits
  | None => None
  end.

(** The client's reading of a text ([Uuid::parse_str] of the query engine):
    by length, 32 digits, the hyphenated spelling, that spelling in braces,
    or that spelling after [urn:uuid:]. *)
Definition parse (text : string) : option string :=
  let chars := list_ascii_of_string text in
  match List.length chars with
  | 32%nat => simple chars
  | 36%nat => hyphenated chars
  | 38%nat =>
      match chars with
      | c :: inner =>
          if ((c =? "{")%char && (last inner " "%char =? "}")%char)%bool
          then hyphenated (removelast inner) else None
      | [] => None
      end
  | 45%nat =>
      if (string_of_list_ascii (firstn 9 chars) =? "urn:uuid:")%string
      then hyphenated (skipn 9 chars) else None
  | _ => None
  end.

(** [count] pairs of hexadecimal digits, a hyphen being allowed after every
    second pair but the last; the digits and what follows them. *)
Fixpoint hexPairs (count : nat) (chars : list ascii)
    : option (list ascii * list ascii) :=
  match count with
  | O => Some ([], chars)
  | S count' =>
      match chars with
      | a :: b :: rest =>
          if (isHexDigit a && isHexDigit b)%bool
          then
            let rest' :=
              match rest with
              | c :: rest'' =>
                  if ((c =? "-")%char && Nat.even count'
                      && negb (count' =? 0)%nat)%bool
                  then rest'' else rest
              | [] => rest
              end in
            match hexPairs count' rest' with
            | Some (digits, tail) => Some (a :: b :: digits, tail)
            | None => None
            end
          else None
      | _ => None
      end
  end.

(** The database's reading of a text ([uuid_in] of PostgreSQL, behind
    [$1::uuid]): sixteen pairs of digits, in braces or not. *)
Definition cast (text : string) : option string :=
  let chars := list_ascii_of_string text in
  let braces := match chars with c :: _ => (c =? "{")%char | [] => false end in
  match hexPairs 16 (if braces then tl chars else chars) with
  | Some (digits, tail) =>
      if (string_of_list_ascii tail =? (if braces then "}" else ""))%string
      then Some (render digits) else None
  | None => None
  end.

End Uuid.

(** ** Tables

    The identifiers in the rows are UUIDs as the database renders them. *)

Module Account.
Record t : Type := mk {
  id : string;
  userId : string;
  accountType : string;
  currency : string;
  status : string;
  balance : Z                     (* cached balance, [DECIMAL(20,8)] *)
}.
End Account.

Module Transaction.
Record t : Type := mk {
  id : string;
  type : string;
  sourceAccountId : option string;
  destinationAccountId : option string;
  amount : Z;                     (* [DECIMAL(20,8)] *)
  currency : string;
  status : string;
  description : option string;
  createdAt : Z
}.
End Transaction.

Module LedgerEntry.
Record t : Type := mk {
  id : string;
  accountId : string;
  transactionId : string;
  entryType : string;
  amount : Z;                     (* [DECIMAL(20,8)] *)
  currency : string;
  createdAt : Z
}.
End LedgerEntry.

Record Db : Type := mkDb {
  accounts : list Account.t;
  transactions : list Transaction.t;
  ledgerEntries : list LedgerEntry.t
}.

(** ** Errors ([errors.js]) and storage failures *)

Inductive Error : Type :=
| UnprocessableEntity (message : string)     (* [APIError] with status 422 *)
| StorageError (message : string)            (* thrown by the client; no [status] *)
| DecimalError (message : string).           (* thrown by [new Decimal]; no [status] *)

Definition errorStatus (err : Error) : option nat :=
  match err with
  | UnprocessableEntity _ => Some 422%nat
  | StorageError _ | DecimalError _ => None
  end.

Definition errorMessage (err : Error) : string :=
  match err with
  | UnprocessableEntity message => message
  | StorageError message => message
  | DecimalError message => message
  end.

(** ** Storage operations

    Every statement sent to the database is recorded, in order, in the
    [log] of the store, with the identifier text the code passed, whether or
    not the statement succeeds there and whether or not the enclosing
    transaction commits.  A call the client refuses (an identifier it cannot
    read, a number that is not finite, a negative [skip]) sends nothing and
    records nothing. *)

Inductive Statement : Type :=
| SelectForUpdate (accountId : string)
| AccountFindUnique (accountId : string)
| AccountUpdate (accountId : string)
| LedgerEntryFindMany (accountId : string)
| LedgerEntryCount (accountId : string)
| LedgerEntryCreate (accountId : string)
| TransactionCreate.

Record Store : Type := mkStore {
  db : Db;
  log : list Statement
}.

(** The computations run against a transaction client: they read and update
    the store and may throw. *)
Definition Tx (A : Type) : Type := Store -> (Error + A) * Store.

Definition ret {A} (a : A) : Tx A := fun s => (inr a, s).

Definition throw {A} (err : Error) : Tx A := fun s => (inl err, s).

Definition bind {A B} (m : Tx A) (k : A -> Tx B) : Tx B :=
  fun s =>
    match m s with
    | (inr a, s') => k a s'
    | (inl err, s') => (inl err, s')
    end.

Notation "x <- m ;; k" := (bind m (fun x => k))
  (at level 61, m at next level, right associativity).
Notation "m ;;; k" := (bind m (fun _ => k))
  (at level 61, right associativity).

Definition record (st : Statement) : Tx unit :=
  fun s => (inr tt, mkStore (db s) (log s ++ [st])).

Definition getDb : Tx Db := fun s => (inr (db s), s).

Definition putDb (d : Db) : Tx unit := fun s => (inr tt, mkStore d (log s)).

(** [prisma.$transaction(body)]: a body that throws is rolled back. *)
Definition prisma_transaction {A} (body : Tx A) : Tx A :=
  fun s =>
    match body s with
    | (inr a, s') => (inr a, s')
    | (inl err, s') => (inl err, mkStore (db s) (log s'))
    end.

(** [SELECT 1 FROM "Account" WHERE "id" = $1::uuid FOR UPDATE]: the
    statement is sent with the text as its parameter, and fails in the
    database when the cast does. *)
Definition queryRawUnsafe_forUpdate (accountId : string) : Tx unit :=
  record (SelectForUpdate accountId) ;;;
  match Uuid.cast accountId with
  | Some _ => ret tt
  | None => throw (StorageError "invalid input syntax for type uuid")
  end.

(** A text bound to a [uuid] parameter by the client. *)
Definition uuidParam (text : string) : Tx string :=
  match Uuid.parse text with
  | Some id => ret id
  | None => throw (StorageError "Inconsistent column data: Error creating UUID")
  end.

(** [tx.account.findUnique({ where: { id } })] *)
Definition accountById (id : string) (d : Db) : option Account.t :=
  find (fun a => Account.id a =? id)%string (accounts d).

Definition account_findUnique (accountId : string) : Tx (option Account.t) :=
  id <- uuidParam accountId ;;
  record (AccountFindUnique accountId) ;;;
  d <- getDb ;;
  ret (accountById id d).

(** [tx.ledgerEntry.findMany({ where: { accountId } })] *)
Definition entriesFor (id : string) (d : Db) : list LedgerEntry.t :=
  filter (fun e => LedgerEntry.accountId e =? id)%string (ledgerEntries d).

Definition ledgerEntry_findMany (accountId : string) : Tx (list LedgerEntry.t) :=
  id <- uuidParam accountId ;;
  record (LedgerEntryFindMany accountId) ;;;
  d <- getDb ;;
  ret (entriesFor id d).

(** A number bound to a decimal parameter by the client.  The request to
    the query engine is JSON, which has no text for an infinity or a NaN:
    the engine finds [null] in their place and refuses it for a required
    field, before anything is executed. *)
Definition numberParam (x : Number.t) : Tx unit :=
  match x with
  | Number.Finite _ _ => ret tt
  | _ => throw (StorageError "Argument must not be null")
  end.

(** A number stored in a [DECIMAL(20,8)] field by a [create] or an
    [update]: the database refuses a value the column cannot hold. *)
Definition decimalField (x : Number.t) : Tx Z :=
  match Column.ofNumber x with
  | Some units => ret units
  | None => throw (StorageError "numeric field overflow")
  end.

(** Values the database supplies for the columns a [create] leaves out:
    the generated identifiers and [CURRENT_TIMESTAMP]. *)
Record Defaults : Type := mkDefaults {
  transactionId : string;
  debitEntryId : string;
  creditEntryId : string;
  now : Z
}.

(** [tx.transaction.create({ data })]: the primary key must be new. *)
Definition transaction_create (id : string) (createdAt : Z)
    (type sourceAccountId destinationAccountId : string)
    (amount : Number.t) (currency status : string) : Tx Transaction.t :=
  source <- uuidParam sourceAccountId ;;
  dest <- uuidParam destinationAccountId ;;
  numberParam amount ;;;
  record TransactionCreate ;;;
  units <- decimalField amount ;;
  d <- getDb ;;
  if existsb (fun t => Transaction.id t =? id)%string (transactions d)
  then throw (StorageError "Unique constraint failed on Transaction_pkey")
  else
    let row := Transaction.mk id type (Some source) (Some dest)
                              units currency status None createdAt in
    putDb (mkDb (accounts d) (transactions d ++ [row]) (ledgerEntries d)) ;;;
    ret row.

(** [tx.ledgerEntry.create({ data })]: the primary key must be new.  The
    transaction identifier is the one the database has just returned. *)
Definition ledgerEntry_create (id : string) (createdAt : Z)
    (accountId transactionId entryType : string)
    (amount : Number.t) (currency : string) : Tx LedgerEntry.t :=
  account <- uuidParam accountId ;;
  numberParam amount ;;;
  record (LedgerEntryCreate accountId) ;;;
  units <- decimalField amount ;;
  d <- getDb ;;
  if existsb (fun e => LedgerEntry.id e =? id)%string (ledgerEntries d)
  then throw (StorageError "Unique constraint failed on LedgerEntry_pkey")
  else
    let row := LedgerEntry.mk id account transactionId entryType units currency
                              createdAt in
    putDb (mkDb (accounts d) (transactions d) (ledgerEntries d ++ [row])) ;;;
    ret row.

(** [tx.account.update({ where: { id }, data: { balance } })] *)
Definition setBalance (id : string) (balance : Z) (a : Account.t) : Account.t :=
  if (Account.id a =? id)%string
  then Account.mk (Account.id a) (Account.userId a) (Account.accountType a)
                  (Account.currency a) (Account.status a) balance
  else a.

Definition account_update (accountId : string) (balance : Number.t) : Tx unit :=
  id <- uuidParam accountId ;;
  numberParam balance ;;;
  record (AccountUpdate accountId) ;;;
  balance <- decimalField balance ;;
  d <- getDb ;;
  if existsb (fun a => Account.id a =? id)%string (accounts d)
  then putDb (mkDb (map (setBalance id balance) (accounts d))
                   (transactions d) (ledgerEntries d))
  else throw (StorageError "Record to update not found").


(** ** [services/ledgerService.js] *)

(** Get balance for an account by calculating from ledger entries.
    Credits increase balance, debits decrease balance. *)
Definition getBalance (accountId currency : string) : Tx Z :=
  entries <- ledgerEntry_findMany accountId ;;
  ret (fold_left
         (fun balance entry =>
            let amount := LedgerEntry.amount entry in
            if (LedgerEntry.entryType entry =? "credit")%string
            then Decimal.plus balance amount
            else if (LedgerEntry.entryType entry =? "debit")%string
            then Decimal.minus balance amount
            else balance)
         entries 0).

(** [Array.prototype.sort()] on strings: ascending by code unit, stable. *)
Fixpoint insert (x : string) (l : list string) : list string :=
  match l with
  | [] => [x]
  | y :: l' => if String.ltb x y then x :: y :: l' else y :: insert x l'
  end.

Definition sort (l : list string) : list string :=
  fold_left (fun acc x => insert x acc) l [].

(** Safe, serializable, concurrent-proof transfer. *)
Definition transfer (defaults : Defaults)
    (sourceAccountId destinationAccountId : string)
    (amount : Decimal.t) (currency : string) : Tx Transaction.t :=
  prisma_transaction (
    (* Always lock accounts in deterministic order *)
    let lockedIds := sort [sourceAccountId; destinationAccountId] in
    queryRawUnsafe_forUpdate (nth 0 lockedIds "") ;;;
    queryRawUnsafe_forUpdate (nth 1 lockedIds "") ;;;
    (* Fetch after lock *)
    source <- account_findUnique sourceAccountId ;;
    dest <- account_findUnique destinationAccountId ;;
    match source, dest with
    | Some _, Some _ =>
        (* Calculate current balance from ledger entries *)
        sourceBalance <- getBalance sourceAccountId currency ;;
        if Decimal.lessThan (Decimal.ofColumn sourceBalance) amount
        then throw (UnprocessableEntity "insufficient funds")
        else
          (* Create transaction record *)
          transaction <- transaction_create (transactionId defaults) (now defaults)
                           "transfer" sourceAccountId destinationAccountId
                           (toNumber amount) currency "completed" ;;
          (* Create ledger entries (source of truth for balances) *)
          ledgerEntry_create (debitEntryId defaults) (now defaults)
            sourceAccountId (Transaction.id transaction) "debit"
            (toNumber amount) currency ;;;
          ledgerEntry_create (creditEntryId defaults) (now defaults)
            destinationAccountId (Transaction.id transaction) "credit"
            (toNumber amount) currency ;;;
          (* Update stored balances to match calculated balances *)
          newSourceBalance <- getBalance sourceAccountId currency ;;
          newDestBalance <- getBalance destinationAccountId currency ;;
          account_update sourceAccountId
            (toNumber (Decimal.ofColumn newSourceBalance)) ;;;
          account_update destinationAccountId
            (toNumber (Decimal.ofColumn newDestBalance)) ;;;
          ret transaction
    | _, _ => throw (UnprocessableEntity "Account does not exist")
    end).

(** ** HTTP layer: [app.js], [routes/flows.js], [routes/accounts.js] *)

Inductive Payload : Type :=
| ErrorPayload (error : string)
| TransferPayload (transaction : Transaction.t)
| LedgerPayload (entries : list LedgerEntry.t)
                (total limit offset : Z) (hasMore : bool).

Record Response : Type := mkResponse {
  statusCode : nat;
  payload : Payload
}.

(** The error handler of [app.js]. *)
Definition errorHandler (err : Error) : Response :=
  match errorStatus err with
  | Some status => mkResponse status (ErrorPayload (errorMessage err))
  | None => mkResponse 500 (ErrorPayload "Internal error")
  end.

(** The [amount] field of a request body: absent, a value [new Decimal]
    throws on, or a value it accepts. *)
Inductive AmountField : Type :=
| AmountUndefined
| AmountInvalid
| AmountDecimal (d : Decimal.t).

Record TransferBody : Type := mkTransferBody {
  sourceAccountId : option string;
  destinationAccountId : option string;
  amount : AmountField;
  currency : option string
}.

(** [!x] for a field that is absent or a string. *)
Definition falsy (x : option string) : bool :=
  match x with
  | None | Some "" => true
  | Some _ => false
  end.

(** [x === y] for fields that are absent or strings. *)
Definition strictEquals (x y : option string) : bool :=
  match x, y with
  | None, None => true
  | Some a, Some b => (a =? b)%string
  | _, _ => false
  end.

Definition upperAscii (c : ascii) : ascii :=
  let n := nat_of_ascii c in
  if ((97 <=? n) && (n <=? 122))%nat then ascii_of_nat (n - 32) else c.

(** [s.toUpperCase()] on ASCII text. *)
Fixpoint toUpperCase (s : string) : string :=
  match s with
  | EmptyString => EmptyString
  | String c s' => String (upperAscii c) (toUpperCase s')
  end.

Definition badRequest (message : string) (s : Store) : Response * Store :=
  (mkResponse 400 (ErrorPayload message), s).

(** [router.post('/transfers', ...)] *)
Definition postTransfers (defaults : Defaults) (body : TransferBody)
    (s : Store) : Response * Store :=
  (* Validation *)
  if falsy (sourceAccountId body) || falsy (destinationAccountId body)
     || match amount body with AmountUndefined => true | _ => false end
     || falsy (currency body)
  then badRequest "sourceAccountId, destinationAccountId, amount, currency required" s
  else if strictEquals (sourceAccountId body) (destinationAccountId body)
  then badRequest "sourceAccountId and destinationAccountId must be different" s
  else
    match sourceAccountId body, destinationAccountId body, amount body, currency body with
    | Some source, Some dest, AmountDecimal amountDec, Some cur =>
        if Decimal.isNaN amountDec || Decimal.lessThanOrEqualTo amountDec Decimal.zero
        then badRequest "amount must be a positive number" s
        else if negb (String.length cur =? 3)%nat
        then badRequest "currency must be a 3-letter code" s
        else
          match transfer defaults source dest amountDec (toUpperCase cur) s with
          | (inr result, s') => (mkResponse 201 (TransferPayload result), s')
          | (inl err, s') => (errorHandler err, s')
          end
    | _, _, _, _ =>
        (* [new Decimal(amount)] throws *)
        (errorHandler (DecimalError "Invalid argument"), s)
    end.

(** [orderBy: { createdAt: 'desc' }] *)
Fixpoint insertDesc (e : LedgerEntry.t) (l : list LedgerEntry.t) : list LedgerEntry.t :=
  match l with
  | [] => [e]
  | y :: l' =>
      if LedgerEntry.createdAt y <? LedgerEntry.createdAt e
      then e :: y :: l' else y :: insertDesc e l'
  end.

Definition orderByCreatedAtDesc (l : list LedgerEntry.t) : list LedgerEntry.t :=
  fold_left (fun acc e => insertDesc e acc) l [].


(** [take] and [skip] travel to the query engine as 64-bit integers. *)
Definition fitsInt (n : Z) : bool := (- 2 ^ 63 <=? n) && (n <? 2 ^ 63).

(** [prisma.ledgerEntry.count({ where: { accountId } })] *)
Definition ledgerEntry_count (accountId : string) : Tx Z :=
  id <- uuidParam accountId ;;
  record (LedgerEntryCount accountId) ;;;
  d <- getDb ;;
  ret (Z.of_nat (List.length (entriesFor id d))).

(** [prisma.ledgerEntry.findMany({ where, orderBy, take, skip })]: the client
    refuses a negative [skip] before it sends anything; a negative [take]
    reads from the end. *)
Definition page {A} (take skip : Z) (rows : list A) : list A :=
  if 0 <=? take
  then firstn (Z.to_nat take) (skipn (Z.to_nat skip) rows)
  else rev (firstn (Z.to_nat (- take)) (skipn (Z.to_nat skip) (rev rows))).

Definition ledgerEntry_findManyPaged (accountId : string) (take skip : Z)
    : Tx (list LedgerEntry.t) :=
  id <- uuidParam accountId ;;
  if negb (fitsInt take && fitsInt skip)
  then throw (StorageError "Unable to fit integer value into a 64-bit signed integer")
  else if skip <? 0
  then throw (StorageError "Invalid value for skip argument: Value can only be positive")
  else
    record (LedgerEntryFindMany accountId) ;;;
    d <- getDb ;;
    ret (page take skip (orderByCreatedAtDesc (entriesFor id d))).

(** [parseInt(x, 10) || fallback], on the result of [parseInt]
    ([None] is NaN). *)
Definition orElse (parsed : option Z) (fallback : Z) : Z :=
  match parsed with
  | None | Some 0 => fallback
  | Some n => n
  end.

(** [router.get('/:id/ledger', ...)]; [limit] and [offset] are the results
    of [parseInt] on the query parameters (an absent parameter defaults to
    ['100'], respectively ['0'], which [None] gives as well). *)
Definition getLedger (id : string) (limit offset : option Z)
    (s : Store) : Response * Store :=
  let limitNum := Z.min (orElse limit 100) 1000 in  (* Max 1000 per request *)
  let offsetNum := orElse offset 0 in
  let handler :=
    (* Get total count for pagination *)
    totalCount <- ledgerEntry_count id ;;
    entries <- ledgerEntry_findManyPaged id limitNum offsetNum ;;
    ret (mkResponse 200
           (LedgerPayload entries totalCount limitNum offsetNum
              (offsetNum + Z.of_nat (List.length entries) <? totalCount))) in
  match handler s with
  | (inr response, s') => (response, s')
  | (inl err, s') => (errorHandler err, s')
  end.

(** ** The balance as the specification words it *)

Module Spec.

(** Running total starts at 0; each credit adds its amount; each debit
    subtracts its amount. *)
Fixpoint runningTotal (total : Z) (entries : list LedgerEntry.t) : Z :=
  match entries with
  | [] => total
  | entry :: rest =>
      if (LedgerEntry.entryType entry =? "credit")%string
      then runningTotal (total + LedgerEntry.amount entry) rest
      else if (LedgerEntry.entryType entry =? "debit")%string
      then runningTotal (total - LedgerEntry.amount entry) rest
      else runningTotal total rest
  end.

(** Sum of the amounts of the entries of one kind. *)
Definition sumOf (kind : string) (entries : list LedgerEntry.t) : Z :=
  fold_right Z.add 0
    (map LedgerEntry.amount
         (filter (fun e => (LedgerEntry.entryType e =? kind)%string) entries)).

(** [balance(account) = sum of credit amounts - sum of debit amounts]. *)
Definition balance (accountId : string) (d : Db) : Z :=
  sumOf "credit" (entriesFor accountId d) - sumOf "debit" (entriesFor accountId d).

End Spec.

(** Referential integrity of the ledger, as the foreign keys of the
    migration enforce it. *)
Definition accountExists (accountId : string) (d : Db) : bool :=
  existsb (fun a => Account.id a =? accountId)%string (accounts d).

Definition transactionExists (transactionId : string) (d : Db) : bool :=
  existsb (fun t => Transaction.id t =? transactionId)%string (transactions d).

Definition foreignKeys (d : Db) : Prop :=
  forall e, In e (ledgerEntries d) ->
    accountExists (LedgerEntry.accountId e) d = true /\
    transactionExists (LedgerEntry.transactionId e) d = true.

(** The statements of a log that write a row. *)
Definition isWrite (st : Statement) : bool :=
  match st with
  | TransactionCreate | LedgerEntryCreate _ | AccountUpdate _ => true
  | _ => false
  end.

Definition isLock (st : Statement) : bool :=
  match st with
  | SelectForUpdate _ => true
  | _ => false
  end.

(** The statements issued between two stores. *)
Definition issued (before after : Store) : list Statement :=
  skipn (List.length (log before)) (log after).

(** ** Outcomes of a transfer *)

(** The statements issued up to the decision. *)
Definition lockAndFetch (source dest : string) : list Statement :=
  [SelectForUpdate (nth 0 (sort [source; dest]) "");
   SelectForUpdate (nth 1 (sort [source; dest]) "");
   AccountFindUnique source; AccountFindUnique dest].

(** The rows a committed transfer appends. *)
Definition transactionRow (defaults : Defaults) (source dest currency : string)
    (units : Z) : Transaction.t :=
  Transaction.mk (transactionId defaults) "transfer" (Some source) (Some dest)
                 units currency "completed" None (now defaults).

Definition debitRow (defaults : Defaults) (source currency : string)
    (units : Z) : LedgerEntry.t :=
  LedgerEntry.mk (debitEntryId defaults) source (transactionId defaults) "debit"
                 units currency (now defaults).

Definition creditRow (defaults : Defaults) (dest currency : string)
    (units : Z) : LedgerEntry.t :=
  LedgerEntry.mk (creditEntryId defaults) dest (transactionId defaults) "credit"
                 units currency (now defaults).
(** ** Notions the properties are stated with *)

(** The request text names the account [id]: the cast of the lock statement
    and the client both read it as [id]. *)
Definition names (text id : string) : Prop :=
  Uuid.cast text = Some id /\ Uuid.parse text = Some id.

(** The request text spells the UUID [id] the usual way: 8-4-4-4-12
    hexadecimal digits, in either letter case. *)
Definition spells (text id : string) : Prop :=
  Uuid.hyphenated (list_ascii_of_string text) = Some id.

(** The rows the lock statements of a log are aimed at. *)
Definition lockedRows (sts : list Statement) : list (option string) :=
  flat_map (fun st => match st with
                      | SelectForUpdate text => [Uuid.cast text]
                      | _ => []
                      end) sts.

(** The balance [getBalance] computes for an account, with the arithmetic of
    decimal.js. *)
Definition derived (id : string) (d : Db) : Z :=
  fold_left
    (fun balance entry =>
       let amount := LedgerEntry.amount entry in
       if (LedgerEntry.entryType entry =? "credit")%string
       then Decimal.plus balance amount
       else if (LedgerEntry.entryType entry =? "debit")%string
       then Decimal.minus balance amount
       else balance)
    (entriesFor id d) 0.

Definition derivedBalance (id : string) (d : Db) : Decimal.t :=
  Decimal.ofColumn (derived id d).

(** Every running total of the entries, from [total] on, has at most twenty
    digits: it is below 10^12 in absolute value. *)
Fixpoint withinPrecision (total : Z) (entries : list LedgerEntry.t) : bool :=
  match entries with
  | [] => true
  | entry :: rest =>
      let total' :=
        if (LedgerEntry.entryType entry =? "credit")%string
        then total + LedgerEntry.amount entry
        else if (LedgerEntry.entryType entry =? "debit")%string
        then total - LedgerEntry.amount entry
        else total in
      (Z.abs total' <? 10 ^ 20) && withinPrecision total' rest
  end.

(** What a committed transfer has done: [a] and [b] are the accounts the
    request texts name. *)
Definition committed (defaults : Defaults) (source dest : string)
    (amount : Decimal.t) (currency : string) (s : Store)
    (tx : Transaction.t) (s' : Store) : Prop :=
  exists a b units,
    Uuid.parse source = Some a
    /\ Uuid.parse dest = Some b
    /\ Column.ofNumber (toNumber amount) = Some units
    /\ tx = transactionRow defaults a b currency units
    /\ transactionExists (transactionId defaults) (db s) = false
    /\ transactions (db s') = transactions (db s) ++ [tx]
    /\ ledgerEntries (db s')
       = ledgerEntries (db s)
           ++ [debitRow defaults a currency units;
               creditRow defaults b currency units]
    /\ (exists newSource newDest,
          accounts (db s')
          = map (setBalance b newDest)
                (map (setBalance a newSource) (accounts (db s))))
    /\ accountById a (db s) <> None
    /\ accountById b (db s) <> None
    /\ Decimal.lessThan (derivedBalance a (db s)) amount = false.

(** ** Example data, after [tests/example.test.js]: two accounts in USD, the
    first funded by an initial deposit *)

Module Example.

Definition accountA : string := "fe3bdf67-41ca-4bd3-9969-f07684e1d7f2".
Definition accountB : string := "cce82b0c-5fa3-4b73-8f06-6dfd66708560".
Definition accountC : string := "3f2a9d1c-7b64-4e08-9c35-5a1e8d7f6b20".
Definition unknown : string := "00000000-0000-4000-8000-000000000000".

(** Account A again, spelled in upper case. *)
Definition upperA : string := "FE3BDF67-41CA-4BD3-9969-F07684E1D7F2".

Definition funded (units : Z) : Db :=
  mkDb
    [Account.mk accountA "userA" "checking" "USD" "active" units;
     Account.mk accountB "userB" "checking" "USD" "active" 0]
    [Transaction.mk "7d1c3a52-0b7e-4c55-9a59-2f1d6f0a9e01" "initial_deposit"
       None (Some accountA) units "USD" "completed" None 0]
    [LedgerEntry.mk "0a4f8c1e-53f2-4e0b-8d55-6a1b7c2d3e02" accountA
       "7d1c3a52-0b7e-4c55-9a59-2f1d6f0a9e01" "credit" units "USD" 0].

Definition defaults : Defaults :=
  mkDefaults "b2e4d6f8-1a3c-4e5f-8a7b-9c0d1e2f3a03"
             "c3f5e7a9-2b4d-4f6a-9b8c-0d1e2f3a4b04"
             "d4a6f8b0-3c5e-4a7b-8c9d-1e2f3a4b5c05" 1.

(** 100.00 on account A. *)
Definition hundred : Store := mkStore (funded 10000000000) [].

(** 999999999.99999999 on account A. *)
Definition wealthy : Store := mkStore (funded 99999999999999999) [].

Definition body (source dest : string) (d : Decimal.t) : TransferBody :=
  mkTransferBody (Some source) (Some dest) (AmountDecimal d) (Some "usd").

(** Three accounts with some history: deposits of 100.00 on A and 50.00 on
    C, then 30.00 from A to C and 20.00 from C to B, each at its own time. *)
Definition busy : Store :=
  mkStore
    (mkDb
       [Account.mk accountA "userA" "checking" "USD" "active" 7000000000;
        Account.mk accountB "userB" "checking" "USD" "active" 2000000000;
        Account.mk accountC "userC" "savings" "USD" "active" 6000000000]
       [Transaction.mk "7d1c3a52-0b7e-4c55-9a59-2f1d6f0a9e01" "initial_deposit"
          None (Some accountA) 10000000000 "USD" "completed" None 10;
        Transaction.mk "7d1c3a52-0b7e-4c55-9a59-2f1d6f0a9e02" "initial_deposit"
          None (Some accountC) 5000000000 "USD" "completed" None 20;
        Transaction.mk "7d1c3a52-0b7e-4c55-9a59-2f1d6f0a9e03" "transfer"
          (Some accountA) (Some accountC) 3000000000 "USD" "completed" None 30;
        Transaction.mk "7d1c3a52-0b7e-4c55-9a59-2f1d6f0a9e04" "transfer"
          (Some accountC) (Some accountB) 2000000000 "USD" "completed" None 40]
       [LedgerEntry.mk "0a4f8c1e-53f2-4e0b-8d55-6a1b7c2d3e01" accountA
          "7d1c3a52-0b7e-4c55-9a59-2f1d6f0a9e01" "credit" 10000000000 "USD" 10;
        LedgerEntry.mk "0a4f8c1e-53f2-4e0b-8d55-6a1b7c2d3e02" accountC
          "7d1c3a52-0b7e-4c55-9a59-2f1d6f0a9e02" "credit" 5000000000 "USD" 20;
        LedgerEntry.mk "0a4f8c1e-53f2-4e0b-8d55-6a1b7c2d3e03" accountA
          "7d1c3a52-0b7e-4c55-9a59-2f1d6f0a9e03" "debit" 3000000000 "USD" 30;
        LedgerEntry.mk "0a4f8c1e-53f2-4e0b-8d55-6a1b7c2d3e04" accountC
          "7d1c3a52-0b7e-4c55-9a59-2f1d6f0a9e03" "credit" 3000000000 "USD" 30;
        LedgerEntry.mk "0a4f8c1e-53f2-4e0b-8d55-6a1b7c2d3e05" accountC
          "7d1c3a52-0b7e-4c55-9a59-2f1d6f0a9e04" "debit" 2000000000 "USD" 40;
        LedgerEntry.mk "0a4f8c1e-53f2-4e0b-8d55-6a1b7c2d3e06" accountB
          "7d1c3a52-0b7e-4c55-9a59-2f1d6f0a9e04" "credit" 2000000000 "USD" 40])
    [].

(** Two deposits of 999999999999.99999999, the largest amount a
    [DECIMAL(20,8)] column holds, on account A. *)
Definition large : Store :=
  mkStore
    (mkDb
       [Account.mk accountA "userA" "checking" "USD" "active" 0;
        Account.mk accountB "userB" "checking" "USD" "active" 0]
       [Transaction.mk "7d1c3a52-0b7e-4c55-9a59-2f1d6f0a9e01" "initial_deposit"
          None (Some accountA) 99999999999999999999 "USD" "completed" None 10;
        Transaction.mk "7d1c3a52-0b7e-4c55-9a59-2f1d6f0a9e02" "initial_deposit"
          None (Some accountA) 99999999999999999999 "USD" "completed" None 20]
       [LedgerEntry.mk "0a4f8c1e-53f2-4e0b-8d55-6a1b7c2d3e01" accountA
          "7d1c3a52-0b7e-4c55-9a59-2f1d6f0a9e01" "credit" 99999999999999999999
          "USD" 10;
        LedgerEntry.mk "0a4f8c1e-53f2-4e0b-8d55-6a1b7c2d3e02" accountA
          "7d1c3a52-0b7e-4c55-9a59-2f1d6f0a9e02" "credit" 99999999999999999999
          "USD" 20])
    [].

End Example.

(** ** [routes/accounts.js]: account details and account creation *)

(** [x.toFixed(8)] for a decimal.js value at the scale of the columns: the
    sign, the integer digits, a point and eight fraction digits. *)
Module Fixed.

Definition digit (n : Z) : ascii := ascii_of_nat (48 + Z.to_nat (n mod 10)).

(** The [count] lowest digits of [n], in front of [rest]. *)
Fixpoint lowDigits (count : nat) (n : Z) (rest : string) : string :=
  match count with
  | O => rest
  | S count' => lowDigits count' (n / 10) (String (digit n) rest)
  end.

(** The digits of [0 <= n], at least one, in front of [rest]. *)
Fixpoint digits (fuel : nat) (n : Z) (rest : string) : string :=
  match fuel with
  | O => String (digit n) rest
  | S fuel' =>
      if n <? 10 then String (digit n) rest
      else digits fuel' (n / 10) (String (digit n) rest)
  end.

Definition toFixed8 (units : Z) : string :=
  let n := Z.abs units in
  let fraction := String "." (lowDigits 8 (n mod 10 ^ 8) "") in
  let unsigned := digits (Z.to_nat (Z.log2 n)) (n / 10 ^ 8) fraction in
  if units <? 0 then String "-" unsigned else unsigned.

(** Reading such a text back as a count of units: the digits, the point
    aside, after the sign. *)
Fixpoint readDigits (acc : Z) (s : string) : Z :=
  match s with
  | EmptyString => acc
  | String c s' =>
      if (c =? ".")%char then readDigits acc s'
      else readDigits (acc * 10 + (Z.of_nat (nat_of_ascii c) - 48)) s'
  end.

Definition units (s : string) : Z :=
  match s with
  | EmptyString => 0
  | String c s' => if (c =? "-")%char then - readDigits 0 s' else readDigits 0 s
  end.

End Fixed.

(** The JSON object the account routes answer with. *)
Module AccountView.
Record t : Type := mk {
  id : string;
  userId : string;
  accountType : string;
  currency : string;
  status : string;
  balance : string
}.
End AccountView.

Inductive AccountResponse : Type :=
| AccountError (statusCode : nat) (error : string)
| AccountJson (statusCode : nat) (view : AccountView.t).

(** The error handler of [app.js], for the account routes. *)
Definition accountErrorHandler (err : Error) : AccountResponse :=
  match errorStatus err with
  | Some status => AccountError status (errorMessage err)
  | None => AccountError 500 "Internal error"
  end.

(** [router.get('/:id', ...)] *)
Definition getAccount (id : string) (s : Store) : AccountResponse * Store :=
  let handler :=
    acct <- account_findUnique id ;;
    match acct with
    | None => ret (AccountError 404 "Account not found")
    | Some acct =>
        bal <- getBalance (Account.id acct) (Account.currency acct) ;;
        ret (AccountJson 200
               (AccountView.mk (Account.id acct) (Account.userId acct)
                  (Account.accountType acct) (Account.currency acct)
                  (Account.status acct) (Fixed.toFixed8 bal)))
    end in
  match handler s with
  | (inr response, s') => (response, s')
  | (inl err, s') => (accountErrorHandler err, s')
  end.

(** [s.trim()] on ASCII text: tab, line feed, vertical tab, form feed,
    carriage return and space are white space. *)
Definition isWhiteSpace (c : ascii) : bool :=
  let n := nat_of_ascii c in
  (((9 <=? n) && (n <=? 13)) || (n =? 32))%nat.

Fixpoint trimStartChars (l : list ascii) : list ascii :=
  match l with
  | c :: l' => if isWhiteSpace c then trimStartChars l' else l
  | [] => []
  end.

Definition trim (s : string) : string :=
  string_of_list_ascii
    (rev (trimStartChars (rev (trimStartChars (list_ascii_of_string s))))).

Module AccountBody.
Record t : Type := mk {
  userId : option string;
  accountType : option string;
  currency : option string
}.
End AccountBody.

(** The [data] handed to [prisma.account.create]. *)
Module AccountData.
Record t : Type := mk {
  userId : string;
  accountType : string;
  currency : string;
  balance : Z
}.
End AccountData.

(** [router.post('/', ...)] up to the call of [prisma.account.create]: the
    400 answer of the validation, or the data of the account to create. *)
Definition postAccounts_data (body : AccountBody.t) : AccountResponse + AccountData.t :=
  if falsy (AccountBody.userId body) || falsy (AccountBody.accountType body)
     || falsy (AccountBody.currency body)
  then inl (AccountError 400 "userId, accountType, currency required")
  else
    match AccountBody.userId body, AccountBody.accountType body,
          AccountBody.currency body with
    | Some userId, Some accountType, Some currency =>
        if (trim userId =? "")%string
        then inl (AccountError 400 "userId must be a non-empty string")
        else if (trim accountType =? "")%string
        then inl (AccountError 400 "accountType must be a non-empty string")
        else if negb (String.length currency =? 3)%nat
        then inl (AccountError 400 "currency must be a 3-letter code")
        else inr (AccountData.mk (trim userId) (trim accountType)
                                 (toUpperCase currency) 0)
    | _, _, _ => inl (AccountError 400 "userId, accountType, currency required")
    end.

(** ** Notions the further properties are stated with *)

(** The decimal.js value [d] is [units] units of 10^-8: it has at most eight
    decimals. *)
Definition hasUnits (d : Decimal.t) (units : Z) : Prop :=
  match d with
  | Decimal.Finite digits places => digits * 10 ^ 8 = units * Decimal.pow10 places
  | _ => False
  end.

(** Newest first: no entry is older than one that comes after it. *)
Fixpoint newestFirst (l : list LedgerEntry.t) : Prop :=
  match l with
  | [] => True
  | x :: l' =>
      (forall y, In y l' -> LedgerEntry.createdAt y <= LedgerEntry.createdAt x)
      /\ newestFirst l'
  end.


(** The entries of an account, in the order the ledger route lists them. *)
Definition listing (accountId : string) (d : Db) : list LedgerEntry.t :=
  orderByCreatedAtDesc (entriesFor accountId d).

(** No two entries of the account were created at the same time, so that
    [orderBy: { createdAt: 'desc' }] leaves no choice to the database. *)
Definition distinctTimes (accountId : string) (d : Db) : Prop :=
  NoDup (map LedgerEntry.createdAt (entriesFor accountId d)).

(** The entries of a ledger answer. *)
Definition pageOf (response : Response) : list LedgerEntry.t :=
  match payload response with
  | LedgerPayload entries _ _ _ _ => entries
  | _ => []
  end.

(** An account row without its cached balance. *)
Definition identity (a : Account.t) : string * string * string * string * string :=
  (Account.id a, Account.userId a, Account.accountType a, Account.currency a,
   Account.status a).

(** The text begins or ends with white space. *)
Definition padded (s : string) : bool :=
  match list_ascii_of_string s with
  | [] => false
  | c :: l => isWhiteSpace c || isWhiteSpace (last l c)
  end.

Definition isLowerAscii (c : ascii) : bool :=
  let n := nat_of_ascii c in ((97 <=? n) && (n <=? 122))%nat.

(** ** Proofs *)

Ltac run := unfold bind, record, getDb, putDb, ret, throw; simpl.

Section Identifiers.

Lemma isHexDigit_lower (c : ascii) :
  Uuid.isHexDigit c = true -> Uuid.isHexDigit (Uuid.lower c) = true.
Proof.
  destruct c as [[] [] [] [] [] [] [] []]; vm_compute; intros H;
    first [reflexivity | discriminate].
Qed.

Lemma lower_lower (c : ascii) : Uuid.lower (Uuid.lower c) = Uuid.lower c.
Proof. destruct c as [[] [] [] [] [] [] [] []]; reflexivity. Qed.

Lemma simple_inv (chars : list ascii) (id : string) :
  Uuid.simple chars = Some id ->
  List.length chars = 32%nat /\ forallb Uuid.isHexDigit chars = true
  /\ id = Uuid.render chars.
Proof.
  unfold Uuid.simple.
  destruct (List.length chars =? 32)%nat eqn:Hlen; simpl; [|discriminate].
  destruct (forallb Uuid.isHexDigit chars) eqn:Hhex; [|discriminate].
  intros H. injection H as <-. apply Nat.eqb_eq in Hlen. auto.
Qed.

Lemma hyphenated_inv (chars : list ascii) (id : string) :
  Uuid.hyphenated chars = Some id -> exists digits, Uuid.simple digits = Some id.
Proof.
  unfold Uuid.hyphenated.
  destruct (Uuid.ungroup [8; 4; 4; 4]%nat chars) as [digits|]; [|discriminate].
  intros H. now exists digits.
Qed.

(** Whatever spelling the client reads, it reads 32 hexadecimal digits. *)
Lemma parse_inv (text id : string) :
  Uuid.parse text = Some id -> exists digits, Uuid.simple digits = Some id.
Proof.
  unfold Uuid.parse.
  set (chars := list_ascii_of_string text).
  destruct (Nat.eq_dec (List.length chars) 32) as [H32|H32].
  { rewrite H32. intros H. now exists chars. }
  destruct (Nat.eq_dec (List.length chars) 36) as [H36|H36].
  { rewrite H36. apply hyphenated_inv. }
  destruct (Nat.eq_dec (List.length chars) 38) as [H38|H38].
  { rewrite H38. destruct chars as [|c inner]; [discriminate|].
    destruct ((c =? "{")%char && (last inner " "%char =? "}")%char)%bool;
      [|discriminate].
    apply hyphenated_inv. }
  destruct (Nat.eq_dec (List.length chars) 45) as [H45|H45].
  { rewrite H45.
    destruct (string_of_list_ascii (firstn 9 chars) =? "urn:uuid:")%string;
      [|discriminate].
    apply hyphenated_inv. }
  generalize dependent (List.length chars). intros n.
  do 46 (destruct n as [|n]; try discriminate; try congruence).
Qed.

Local Opaque Uuid.isHexDigit Uuid.lower.

(** The text the database renders a UUID with is read as that UUID. *)
Lemma parse_render (digits : list ascii) :
  List.length digits = 32%nat ->
  forallb Uuid.isHexDigit digits = true ->
  Uuid.parse (Uuid.render digits) = Some (Uuid.render digits).
Proof.
  intros Hlen Hhex.
  do 32 (destruct digits as [|? digits]; [discriminate|]).
  destruct digits; [|discriminate]. clear Hlen.
  cbn [forallb] in Hhex.
  repeat match type of Hhex with
         | (_ && _)%bool = true =>
             apply andb_prop in Hhex; let H := fresh "Hc" in destruct Hhex as [H Hhex]
         end.
  unfold Uuid.parse, Uuid.render.
  rewrite list_ascii_of_string_of_list_ascii.
  cbn [map Uuid.group firstn skipn app List.length Uuid.hyphenated Uuid.ungroup
       Ascii.eqb Bool.eqb].
  unfold Uuid.simple, Uuid.render.
  cbn [map List.length Nat.eqb forallb andb].
  rewrite !isHexDigit_lower by assumption.
  rewrite !lower_lower. reflexivity.
Qed.

(** Reading is idempotent: an identifier the client has read is read as
    itself. *)
Lemma parse_idempotent (text id : string) :
  Uuid.parse text = Some id -> Uuid.parse id = Some id.
Proof.
  intros Hparse. destruct (parse_inv text id Hparse) as [digits Hsimple].
  destruct (simple_inv digits id Hsimple) as (Hlen & Hhex & ->).
  now apply parse_render.
Qed.

Local Transparent Uuid.isHexDigit Uuid.lower.

Lemma hex_is_no_hyphen (c : ascii) :
  Uuid.isHexDigit c = true -> (c =? "-")%char = false.
Proof.
  destruct c as [[] [] [] [] [] [] [] []]; vm_compute; intros H;
    first [reflexivity | discriminate].
Qed.

Lemma hex_is_no_brace (c : ascii) :
  Uuid.isHexDigit c = true -> (c =? "{")%char = false.
Proof.
  destruct c as [[] [] [] [] [] [] [] []]; vm_compute; intros H;
    first [reflexivity | discriminate].
Qed.

Local Opaque Uuid.isHexDigit Uuid.lower.

(** Where the hyphens can be taken out, they stood after the groups. *)
Lemma ungroup_group (sizes : list nat) :
  forall chars digits,
    Uuid.ungroup sizes chars = Some digits -> chars = Uuid.group sizes digits.
Proof.
  induction sizes as [|n sizes IH]; intros chars digits; simpl.
  - congruence.
  - destruct (skipn n chars) as [|c rest] eqn:Hskip; [discriminate|].
    destruct (c =? "-")%char eqn:Hc; [|discriminate].
    apply Ascii.eqb_eq in Hc. subst c.
    destruct (Uuid.ungroup sizes rest) as [digits'|] eqn:Hrest; [|discriminate].
    intros H. injection H as <-.
    assert (Hlen : List.length (firstn n chars) = n).
    { apply firstn_length_le.
      destruct (Nat.le_gt_cases n (List.length chars)) as [Hle|Hgt]; [exact Hle|].
      rewrite skipn_all2 in Hskip by lia. discriminate. }
    rewrite firstn_app, skipn_app, Hlen, Nat.sub_diag.
    rewrite firstn_all2 by (rewrite Hlen; reflexivity).
    rewrite skipn_all2 by (rewrite Hlen; reflexivity).
    simpl. rewrite app_nil_r.
    rewrite <- (IH rest digits' Hrest), <- Hskip.
    symmetry. apply firstn_skipn.
Qed.

(** The usual spelling is read alike by the cast of the lock statement and by
    the client. *)
Lemma spells_names (text id : string) : spells text id -> names text id.
Proof.
  unfold spells, names, Uuid.hyphenated. intros H.
  destruct (Uuid.ungroup [8; 4; 4; 4]%nat (list_ascii_of_string text))
    as [digits|] eqn:Hungroup; [|discriminate].
  apply ungroup_group in Hungroup.
  destruct (simple_inv digits id H) as (Hlen & Hhex & ->).
  unfold Uuid.cast, Uuid.parse. rewrite Hungroup. clear Hungroup H.
  do 32 (destruct digits as [|? digits]; [discriminate|]).
  destruct digits; [|discriminate]. clear Hlen.
  cbn [forallb] in Hhex.
  repeat match type of Hhex with
         | (_ && _)%bool = true =>
             apply andb_prop in Hhex; let H := fresh "Hc" in destruct Hhex as [H Hhex]
         end.
  clear Hhex.
  repeat match goal with
         | Hc : Uuid.isHexDigit ?c = true |- _ =>
             pose proof (hex_is_no_brace c Hc); pose proof (hex_is_no_hyphen c Hc);
             revert Hc
         end.
  intros.
  repeat (progress
            (unfold Uuid.simple;
              cbn [Uuid.group firstn skipn app List.length tl Uuid.hyphenated
                   Uuid.ungroup Uuid.hexPairs Nat.even Nat.eqb negb andb
                   Ascii.eqb Bool.eqb string_of_list_ascii String.eqb forallb];
              repeat match goal with
                     | Hc : _ = _ |- _ => rewrite Hc
                     end)).
  split; reflexivity.
Qed.

Lemma spells_parse (text id : string) :
  spells text id -> Uuid.parse text = Some id.
Proof. intros H. apply (spells_names text id H). Qed.

End Identifiers.

Section DecimalArithmetic.

Lemma roundTo_one (n : Z) : Decimal.roundTo n 1 = n.
Proof.
  unfold Decimal.roundTo. rewrite Z.mul_1_r.
  replace (2 * n + 1) with (1 + n * 2) by ring.
  rewrite Z.div_add by discriminate. reflexivity.
Qed.

Lemma lastPlace_small (fuel : nat) (n : Z) :
  n < 10 ^ 20 -> Decimal.lastPlace fuel n 1 = 1.
Proof.
  intros Hn. destruct fuel as [|fuel]; cbn [Decimal.lastPlace]; [reflexivity|].
  rewrite Z.mul_1_r.
  destruct (n <? 10 ^ 20) eqn:Hlt; [reflexivity|].
  apply Z.ltb_ge in Hlt. lia.
Qed.

(** A result of at most twenty digits is not rounded. *)
Lemma finalise_small (n : Z) : Z.abs n < 10 ^ 20 -> Decimal.finalise n = n.
Proof.
  intros Hn. unfold Decimal.finalise.
  rewrite lastPlace_small by exact Hn. rewrite roundTo_one.
  destruct (n <? 0) eqn:Hneg.
  - apply Z.ltb_lt in Hneg. lia.
  - apply Z.ltb_ge in Hneg. lia.
Qed.

End DecimalArithmetic.

Section BalanceCalculator.

Lemma runningTotal_sums (entries : list LedgerEntry.t) (total : Z) :
  Spec.runningTotal total entries
  = total + Spec.sumOf "credit" entries - Spec.sumOf "debit" entries.
Proof.
  revert total.
  induction entries as [|entry rest IH]; intros total.
  - unfold Spec.sumOf; simpl. lia.
  - unfold Spec.sumOf in *. simpl.
    destruct (LedgerEntry.entryType entry =? "credit")%string eqn:Ecredit.
    + apply String.eqb_eq in Ecredit. rewrite Ecredit. simpl.
      rewrite IH. lia.
    + destruct (LedgerEntry.entryType entry =? "debit")%string eqn:Edebit;
        simpl; rewrite IH; lia.
Qed.

(** Within the precision of decimal.js the loop of [getBalance] is the
    running total of the specification. *)
Lemma fold_withinPrecision (entries : list LedgerEntry.t) (total : Z) :
  withinPrecision total entries = true ->
  fold_left
    (fun balance entry =>
       let amount := LedgerEntry.amount entry in
       if (LedgerEntry.entryType entry =? "credit")%string
       then Decimal.plus balance amount
       else if (LedgerEntry.entryType entry =? "debit")%string
       then Decimal.minus balance amount
       else balance)
    entries total
  = Spec.runningTotal total entries.
Proof.
  revert total.
  induction entries as [|entry rest IH]; intros total Hwithin; simpl.
  - reflexivity.
  - simpl in Hwithin. apply andb_prop in Hwithin. destruct Hwithin as [Hstep Hrest].
    apply Z.ltb_lt in Hstep.
    unfold Decimal.plus, Decimal.minus.
    destruct (LedgerEntry.entryType entry =? "credit")%string.
    + rewrite finalise_small by exact Hstep. now apply IH.
    + destruct (LedgerEntry.entryType entry =? "debit")%string.
      * rewrite finalise_small by exact Hstep. now apply IH.
      * now apply IH.
Qed.

Lemma derived_withinPrecision (id : string) (d : Db) :
  withinPrecision 0 (entriesFor id d) = true ->
  derived id d = Spec.runningTotal 0 (entriesFor id d).
Proof. apply fold_withinPrecision. Qed.

(** [getBalance] reads and never writes. *)
Lemma getBalance_run (accountId currency id : string) (s : Store) :
  Uuid.parse accountId = Some id ->
  getBalance accountId currency s
  = (inr (derived id (db s)),
     mkStore (db s) (log s ++ [LedgerEntryFindMany accountId])).
Proof.
  intros Hid. unfold getBalance, ledgerEntry_findMany, uuidParam. rewrite Hid.
  reflexivity.
Qed.

Lemma getBalance_refused (accountId currency : string) (s : Store) :
  Uuid.parse accountId = None ->
  exists message, getBalance accountId currency s = (inl (StorageError message), s).
Proof.
  intros Hid. unfold getBalance, ledgerEntry_findMany, uuidParam. rewrite Hid.
  eexists. reflexivity.
Qed.

End BalanceCalculator.

(** C1 (as the code has it). For an identifier that spells the UUID of an
    account whose running totals stay below 10^12 in absolute value, so that
    none needs more than the twenty digits decimal.js keeps, [getBalance]
    returns the fold over the ledger entries of the account that starts
    from 0, adds the amount of each credit and subtracts the amount of each
    debit; this is the sum of the credit amounts minus the sum of the debit
    amounts of the account's entries. *)
Theorem getBalance_is_ledger_fold (accountId currency id : string) (s : Store) :
  spells accountId id ->
  withinPrecision 0 (entriesFor id (db s)) = true ->
  fst (getBalance accountId currency s)
  = inr (Spec.runningTotal 0 (entriesFor id (db s)))
  /\ Spec.runningTotal 0 (entriesFor id (db s)) = Spec.balance id (db s).
Proof.
  intros Hid Hwithin. apply spells_parse in Hid. split.
  - rewrite (getBalance_run accountId currency id s Hid). simpl.
    now rewrite derived_withinPrecision.
  - unfold Spec.balance. rewrite runningTotal_sums. lia.
Qed.

Lemma getBalance_is_ledger_fold_witness :
  fst (getBalance Example.upperA "USD" Example.busy)
  = inr (Spec.runningTotal 0 (entriesFor Example.accountA (db Example.busy)))
  /\ Spec.runningTotal 0 (entriesFor Example.accountA (db Example.busy))
     = Spec.balance Example.accountA (db Example.busy).
Proof.
  apply (getBalance_is_ledger_fold Example.upperA "USD" Example.accountA
           Example.busy); reflexivity.
Defined.

(** C1 as stated fails beyond twenty digits: with two credits of
    999999999999.99999999 on its account, [getBalance] returns
    2000000000000, which is neither the running total nor the sum of the
    credits, 1999999999999.99999998. *)
Lemma getBalance_rounds_to_twenty_digits :
  map LedgerEntry.entryType (entriesFor Example.accountA (db Example.large))
  = ["credit"; "credit"]
  /\ map LedgerEntry.amount (entriesFor Example.accountA (db Example.large))
     = [99999999999999999999; 99999999999999999999]
  /\ fst (getBalance Example.accountA "USD" Example.large)
     = inr 200000000000000000000
  /\ Spec.runningTotal 0 (entriesFor Example.accountA (db Example.large))
     = 199999999999999999998
  /\ Spec.balance Example.accountA (db Example.large) = 199999999999999999998.
Proof. split; [|split; [|split; [|split]]]; vm_compute; reflexivity. Qed.

Section Logs.

Lemma issued_app (before : Store) (d : Db) (sts : list Statement) :
  issued before (mkStore d (log before ++ sts)) = sts.
Proof.
  unfold issued. simpl.
  induction (log before) as [|st l IH]; simpl; [reflexivity | exact IH].
Qed.


Lemma issued_nothing (s : Store) : issued s s = [].
Proof.
  unfold issued. induction (log s) as [|st l IH]; simpl; [reflexivity | exact IH].
Qed.


End Logs.

Section LockOrder.

Lemma sort_pair (x y : string) :
  sort [x; y] = if String.ltb y x then [y; x] else [x; y].
Proof. reflexivity. Qed.


Lemma sort_pair_ordered (x y : string) :
  String.leb (nth 0 (sort [x; y]) "") (nth 1 (sort [x; y]) "") = true.
Proof.
  rewrite sort_pair. unfold String.ltb, String.leb.
  destruct (String.compare y x) eqn:Hcmp; simpl.
  - now rewrite String.compare_antisym, Hcmp.
  - now rewrite Hcmp.
  - now rewrite String.compare_antisym, Hcmp.
Qed.

(** The sorted pair is the pair, in one order or the other. *)
Lemma sort_pair_cases (x y : string) :
  (nth 0 (sort [x; y]) "" = x /\ nth 1 (sort [x; y]) "" = y)
  \/ (nth 0 (sort [x; y]) "" = y /\ nth 1 (sort [x; y]) "" = x).
Proof. rewrite sort_pair. destruct (String.ltb y x); simpl; auto. Qed.

Lemma sort_pair_both (P : string -> Prop) (x y : string) :
  P x -> P y -> P (nth 0 (sort [x; y]) "") /\ P (nth 1 (sort [x; y]) "").
Proof.
  intros Hx Hy.
  destruct (sort_pair_cases x y) as [[-> ->]|[-> ->]]; auto.
Qed.

End LockOrder.

Section TransferOrchestrator.

Variable defaults : Defaults.
Variables source dest : string.
Variable amount : Decimal.t.
Variable currency : string.
Variable s : Store.

Local Opaque toNumber Column.ofNumber Decimal.lessThan sort getBalance
  Uuid.cast Uuid.parse.

Ltac unfold_transfer :=
  unfold transfer, prisma_transaction, queryRawUnsafe_forUpdate,
    account_findUnique, transaction_create, ledgerEntry_create,
    account_update, numberParam, decimalField, uuidParam;
  run.

Ltac split_run :=
  repeat first
    [ erewrite getBalance_run by eassumption; simpl
    | match goal with
      | |- context [match ?x with _ => _ end] =>
          lazymatch x with
          | context [match _ with _ => _ end] => fail
          | _ => destruct x eqn:?; simpl
          end
      end ].

(** Either the transfer throws and the database is as before, or it
    returns the transaction row it has appended with its two entries. *)
Lemma transfer_outcome :
  match transfer defaults source dest amount currency s with
  | (inl _, s') => db s' = db s
  | (inr tx, s') => committed defaults source dest amount currency s tx s'
  end.
Proof.
  unfold_transfer.
  destruct (Uuid.cast (nth 0 (sort [source; dest]) "")); simpl; [|reflexivity].
  destruct (Uuid.cast (nth 1 (sort [source; dest]) "")); simpl; [|reflexivity].
  destruct (Uuid.parse source) as [a|] eqn:Hsource; simpl; [|reflexivity].
  destruct (Uuid.parse dest) as [b|] eqn:Hdest; simpl; [|reflexivity].
  destruct (accountById a (db s)) eqn:Ha;
    destruct (accountById b (db s)) eqn:Hb; simpl; try reflexivity.
  rewrite (getBalance_run source currency a _ Hsource); simpl.
  destruct (Decimal.lessThan _ amount) eqn:Hless; simpl; [reflexivity|].
  split_run; try reflexivity.
  unfold committed, derivedBalance, transactionRow, debitRow, creditRow,
    transactionExists.
  exists a, b. eexists.
  repeat split; simpl; rewrite <- ?app_assoc; eauto; congruence.
Qed.

(** What a transfer can throw. *)
Lemma transfer_throws (err : Error) (s' : Store) :
  transfer defaults source dest amount currency s = (inl err, s') ->
  err = UnprocessableEntity "Account does not exist"
  \/ err = UnprocessableEntity "insufficient funds"
  \/ exists message, err = StorageError message.
Proof.
  unfold_transfer.
  destruct (Uuid.cast (nth 0 (sort [source; dest]) "")); simpl;
    [|intros H; inversion H; eauto].
  destruct (Uuid.cast (nth 1 (sort [source; dest]) "")); simpl;
    [|intros H; inversion H; eauto].
  destruct (Uuid.parse source) as [a|] eqn:Hsource; simpl;
    [|intros H; inversion H; eauto].
  destruct (Uuid.parse dest) as [b|] eqn:Hdest; simpl;
    [|intros H; inversion H; eauto].
  destruct (accountById a (db s)) eqn:Ha;
    destruct (accountById b (db s)) eqn:Hb; simpl;
    try (intros H; inversion H; auto; fail).
  rewrite (getBalance_run source currency a _ Hsource); simpl.
  split_run; intros H; inversion H; eauto.
Qed.

(** The locks come first: the lock on the first text of the sorted pair is
    the first statement sent; when its cast fails nothing else is sent, and
    otherwise the lock on the second text follows and no later statement is
    a lock. *)
Lemma transfer_lock_log :
  exists rest,
    issued s (snd (transfer defaults source dest amount currency s))
    = SelectForUpdate (nth 0 (sort [source; dest]) "") :: rest
    /\ match Uuid.cast (nth 0 (sort [source; dest]) "") with
       | None => rest = []
       | Some _ =>
           exists rest',
             rest = SelectForUpdate (nth 1 (sort [source; dest]) "") :: rest'
             /\ filter isLock rest' = []
       end.
Proof.
  unfold_transfer.
  destruct (Uuid.cast (nth 0 (sort [source; dest]) "")); simpl;
    [|rewrite issued_app; eexists; split; reflexivity].
  destruct (Uuid.cast (nth 1 (sort [source; dest]) "")); simpl;
    [|rewrite <- !app_assoc, issued_app; eexists; split;
      [reflexivity | eexists; split; reflexivity]].
  destruct (Uuid.parse source) as [a|] eqn:Hsource; simpl;
    [|rewrite <- !app_assoc, issued_app; eexists; split;
      [reflexivity | eexists; split; reflexivity]].
  destruct (Uuid.parse dest) as [b|] eqn:Hdest; simpl;
    [|rewrite <- !app_assoc, issued_app; eexists; split;
      [reflexivity | eexists; split; reflexivity]].
  destruct (accountById a (db s)) eqn:Ha;
    destruct (accountById b (db s)) eqn:Hb; simpl;
    try (rewrite <- !app_assoc, issued_app; eexists; split;
         [reflexivity | eexists; split; reflexivity]).
  rewrite (getBalance_run source currency a _ Hsource); simpl.
  split_run; rewrite <- !app_assoc, issued_app; eexists; split;
    solve [reflexivity | eexists; split; reflexivity].
Qed.

(** The cached balances a committed transfer leaves. *)
Lemma transfer_cached_balances (tx : Transaction.t) (s' : Store) :
  transfer defaults source dest amount currency s = (inr tx, s') ->
  exists a b newSource newDest,
    Uuid.parse source = Some a
    /\ Uuid.parse dest = Some b
    /\ Column.ofNumber (toNumber (derivedBalance a (db s'))) = Some newSource
    /\ Column.ofNumber (toNumber (derivedBalance b (db s'))) = Some newDest
    /\ accounts (db s')
       = map (setBalance b newDest)
             (map (setBalance a newSource) (accounts (db s))).
Proof.
  unfold_transfer.
  destruct (Uuid.cast (nth 0 (sort [source; dest]) "")); simpl;
    [|intros H; discriminate H].
  destruct (Uuid.cast (nth 1 (sort [source; dest]) "")); simpl;
    [|intros H; discriminate H].
  destruct (Uuid.parse source) as [a|] eqn:Hsource; simpl;
    [|intros H; discriminate H].
  destruct (Uuid.parse dest) as [b|] eqn:Hdest; simpl;
    [|intros H; discriminate H].
  destruct (accountById a (db s)) eqn:Ha;
    destruct (accountById b (db s)) eqn:Hb; simpl;
    try (intros H; discriminate H).
  rewrite (getBalance_run source currency a _ Hsource); simpl.
  split_run; intros H; inversion H; subst; clear H.
  repeat match goal with
         | Hnumber : toNumber _ = Number.Finite ?m ?e,
           Hcolumn : Column.ofNumber (Number.Finite ?m ?e) = _ |- _ =>
             rewrite <- Hnumber in Hcolumn; clear Hnumber
         end.
  exists a, b. unfold derivedBalance, derived, entriesFor in *. simpl in *.
  eauto 10.
Qed.

Section NamedAccounts.

Variables a b : string.
Hypothesis source_names : names source a.
Hypothesis dest_names : names dest b.

Lemma casts_succeed :
  Uuid.cast (nth 0 (sort [source; dest]) "") <> None
  /\ Uuid.cast (nth 1 (sort [source; dest]) "") <> None.
Proof.
  apply (sort_pair_both (fun text => Uuid.cast text <> None)).
  - destruct source_names as [H _]. rewrite H. discriminate.
  - destruct dest_names as [H _]. rewrite H. discriminate.
Qed.

Ltac named_transfer :=
  destruct casts_succeed as [Hfirst Hsecond];
  destruct source_names as [_ Hsource];
  destruct dest_names as [_ Hdest];
  unfold_transfer;
  destruct (Uuid.cast (nth 0 (sort [source; dest]) "")) eqn:?; [|congruence];
  destruct (Uuid.cast (nth 1 (sort [source; dest]) "")) eqn:?; [|congruence];
  simpl; rewrite Hsource; simpl; rewrite Hdest; simpl.

Lemma transfer_missing_account :
  accountById a (db s) = None \/ accountById b (db s) = None ->
  transfer defaults source dest amount currency s
  = (inl (UnprocessableEntity "Account does not exist"),
     mkStore (db s) (log s ++ lockAndFetch source dest)).
Proof.
  intros Hmissing. named_transfer.
  unfold lockAndFetch. rewrite <- !app_assoc. simpl.
  destruct (accountById a (db s)), (accountById b (db s));
    try reflexivity.
  destruct Hmissing; discriminate.
Qed.




End NamedAccounts.

End TransferOrchestrator.



Section Rollback.

Lemma transfer_throws_rolls_back
    (defaults : Defaults) (source dest : string) (amount : Decimal.t)
    (currency : string) (s s' : Store) (err : Error) :
  transfer defaults source dest amount currency s = (inl err, s') -> db s' = db s.
Proof.
  intros Hrun.
  pose proof (transfer_outcome defaults source dest amount currency s) as Hout.
  now rewrite Hrun in Hout.
Qed.

End Rollback.

(** C3. A [POST /transfers] call that does not answer 201 (a validation
    failure, a missing account, insufficient funds or any other error)
    leaves the tables exactly as they were: the ledger entries of every
    account, in particular their count, and the transaction rows are
    unchanged. *)
Theorem rejected_transfer_changes_nothing
    (defaults : Defaults) (body : TransferBody) (s : Store) :
  statusCode (fst (postTransfers defaults body s)) <> 201%nat ->
  let s' := snd (postTransfers defaults body s) in
  db s' = db s
  /\ (forall accountId,
        List.length (entriesFor accountId (db s'))
        = List.length (entriesFor accountId (db s)))
  /\ transactions (db s') = transactions (db s).
Proof.
  intros Hstatus s'.
  assert (Hdb : db s' = db s).
  { subst s'. revert Hstatus. unfold postTransfers, badRequest.
    repeat match goal with
      | |- context [if ?c then _ else _] => destruct c; simpl; try reflexivity
      end.
    destruct (sourceAccountId body) as [source|],
      (destinationAccountId body) as [dest|], (amount body) as [| |amountDec],
      (currency body) as [cur|]; simpl; try reflexivity.
    repeat match goal with
      | |- context [if ?c then _ else _] => destruct c; simpl; try reflexivity
      end.
    destruct (transfer defaults source dest amountDec (toUpperCase cur) s)
      as [[err|tx] st] eqn:Hrun; simpl.
    - intros _. eapply transfer_throws_rolls_back; eassumption.
    - intros Hne. now elim Hne. }
  rewrite Hdb. auto.
Qed.

Lemma rejected_transfer_changes_nothing_witness :
  let s' := snd (postTransfers Example.defaults
                   (Example.body Example.accountA Example.accountB
                      (Decimal.Finite 10050 2))
                   Example.hundred) in
  db s' = db Example.hundred
  /\ (forall accountId,
        List.length (entriesFor accountId (db s'))
        = List.length (entriesFor accountId (db Example.hundred)))
  /\ transactions (db s') = transactions (db Example.hundred).
Proof.
  apply (rejected_transfer_changes_nothing Example.defaults
           (Example.body Example.accountA Example.accountB (Decimal.Finite 10050 2))
           Example.hundred).
  vm_compute. lia.
Defined.

Section Pairing.

Lemma filter_nothing {A} (f : A -> bool) (l : list A) :
  (forall x, In x l -> f x = false) -> filter f l = [].
Proof.
  induction l as [|x l IH]; intros Hall; simpl.
  - reflexivity.
  - rewrite (Hall x (or_introl eq_refl)). apply IH.
    intros y Hy. apply Hall. now right.
Qed.

Lemma existing_transaction_differs (d : Db) (known fresh : string) :
  transactionExists known d = true ->
  transactionExists fresh d = false ->
  (known =? fresh)%string = false.
Proof.
  intros Hknown Hfresh.
  destruct (String.eqb_spec known fresh) as [Heq|]; [|reflexivity].
  subst. congruence.
Qed.

End Pairing.

(** C4. A transfer that commits leaves exactly two ledger entries carrying
    the identifier of its transaction record: a debit on the account the
    source identifier names and a credit on the account the destination
    identifier names, both with the amount and the currency of the record
    (the ledger being one whose entries refer to existing transaction rows,
    as its foreign key requires). *)
Theorem committed_transfer_has_its_pair
    (defaults : Defaults) (source dest : string) (amount : Decimal.t)
    (currency : string) (s s' : Store) (tx : Transaction.t) :
  foreignKeys (db s) ->
  transfer defaults source dest amount currency s = (inr tx, s') ->
  In tx (transactions (db s'))
  /\ exists debit credit,
       filter (fun e => (LedgerEntry.transactionId e =? Transaction.id tx)%string)
              (ledgerEntries (db s'))
       = [debit; credit]
       /\ LedgerEntry.entryType debit = "debit"
       /\ Uuid.parse source = Some (LedgerEntry.accountId debit)
       /\ Transaction.sourceAccountId tx = Some (LedgerEntry.accountId debit)
       /\ LedgerEntry.entryType credit = "credit"
       /\ Uuid.parse dest = Some (LedgerEntry.accountId credit)
       /\ Transaction.destinationAccountId tx = Some (LedgerEntry.accountId credit)
       /\ LedgerEntry.amount debit = Transaction.amount tx
       /\ LedgerEntry.amount credit = Transaction.amount tx
       /\ LedgerEntry.currency debit = Transaction.currency tx
       /\ LedgerEntry.currency credit = Transaction.currency tx.
Proof.
  intros Hfk Hrun.
  pose proof (transfer_outcome defaults source dest amount currency s) as Hout.
  rewrite Hrun in Hout.
  destruct Hout as (a & b & units & Ha & Hb & _ & Htx & Hfresh & Htxs & Hentries & _).
  split.
  - rewrite Htxs. apply in_or_app. right. now left.
  - exists (debitRow defaults a currency units),
           (creditRow defaults b currency units).
    rewrite Hentries, filter_app, Htx. simpl.
    rewrite String.eqb_refl.
    rewrite filter_nothing; [repeat split; assumption|].
    intros e He. destruct (Hfk e He) as [_ Hknown].
    eapply existing_transaction_differs; eassumption.
Qed.

Lemma committed_transfer_has_its_pair_witness :
  let tx := transactionRow Example.defaults Example.accountA Example.accountB
              "USD" 4000000000 in
  let s' := snd (transfer Example.defaults Example.upperA Example.accountB
                   (Decimal.Finite 4000 2) "USD" Example.hundred) in
  foreignKeys (db Example.hundred)
  /\ In tx (transactions (db s'))
  /\ exists debit credit,
       filter (fun e => (LedgerEntry.transactionId e =? Transaction.id tx)%string)
              (ledgerEntries (db s'))
       = [debit; credit]
       /\ LedgerEntry.entryType debit = "debit"
       /\ Uuid.parse Example.upperA = Some (LedgerEntry.accountId debit)
       /\ Transaction.sourceAccountId tx = Some (LedgerEntry.accountId debit)
       /\ LedgerEntry.entryType credit = "credit"
       /\ Uuid.parse Example.accountB = Some (LedgerEntry.accountId credit)
       /\ Transaction.destinationAccountId tx = Some (LedgerEntry.accountId credit)
       /\ LedgerEntry.amount debit = Transaction.amount tx
       /\ LedgerEntry.amount credit = Transaction.amount tx
       /\ LedgerEntry.currency debit = Transaction.currency tx
       /\ LedgerEntry.currency credit = Transaction.currency tx.
Proof.
  intros tx s'.
  assert (Hfk : foreignKeys (db Example.hundred)).
  { intros e [He|[]]. subst e. split; reflexivity. }
  split; [exact Hfk|].
  apply (committed_transfer_has_its_pair Example.defaults
           Example.upperA Example.accountB (Decimal.Finite 4000 2) "USD"
           Example.hundred s' tx Hfk).
  vm_compute. reflexivity.
Defined.

(** C6. The lock order follows the spelling of the identifiers, not the
    accounts: [transfer] sorts the texts of the request, and the database
    reads a UUID in any letter case.  On the same store, a transfer from A
    to B and a transfer from B to A in which A is written in upper case are
    both answered 201, and they lock the same two rows in opposite
    orders. *)
Theorem lock_order_follows_spelling :
  let forth := postTransfers Example.defaults
                 (Example.body Example.accountA Example.accountB
                    (Decimal.Finite 1000 2))
                 Example.busy in
  let back := postTransfers Example.defaults
                (Example.body Example.accountB Example.upperA
                   (Decimal.Finite 1000 2))
                Example.busy in
  Uuid.cast Example.upperA = Uuid.cast Example.accountA
  /\ statusCode (fst forth) = 201%nat
  /\ statusCode (fst back) = 201%nat
  /\ filter isLock (issued Example.busy (snd forth))
     = [SelectForUpdate Example.accountB; SelectForUpdate Example.accountA]
  /\ filter isLock (issued Example.busy (snd back))
     = [SelectForUpdate Example.upperA; SelectForUpdate Example.accountB]
  /\ lockedRows (issued Example.busy (snd forth))
     = [Some Example.accountB; Some Example.accountA]
  /\ lockedRows (issued Example.busy (snd back))
     = [Some Example.accountA; Some Example.accountB].
Proof.
  split; [|split; [|split; [|split; [|split; [|split]]]]];
    vm_compute; reflexivity.
Qed.

(** C8. The validation compares the two identifiers as texts.  A request
    whose source and destination are the same account written in two letter
    cases passes it, locks the one row twice and is answered 201: the
    transfer commits with that account as its source and its destination,
    debited and credited by the same amount. *)
Theorem self_transfer_under_two_spellings :
  let outcome := postTransfers Example.defaults
                   (Example.body Example.accountA Example.upperA
                      (Decimal.Finite 4000 2))
                   Example.hundred in
  Uuid.parse Example.upperA = Uuid.parse Example.accountA
  /\ fst outcome
     = mkResponse 201
         (TransferPayload
            (transactionRow Example.defaults Example.accountA Example.accountA
               "USD" 4000000000))
  /\ lockedRows (issued Example.hundred (snd outcome))
     = [Some Example.accountA; Some Example.accountA]
  /\ ledgerEntries (db (snd outcome))
     = ledgerEntries (db Example.hundred)
         ++ [debitRow Example.defaults Example.accountA "USD" 4000000000;
             creditRow Example.defaults Example.accountA "USD" 4000000000].
Proof. split; [|split; [|split]]; vm_compute; reflexivity. Qed.

Section BalancesAfterCommit.

Lemma runningTotal_app (l l' : list LedgerEntry.t) (total : Z) :
  Spec.runningTotal total (l ++ l') = Spec.runningTotal (Spec.runningTotal total l) l'.
Proof.
  revert total. induction l as [|entry rest IH]; intros total; simpl.
  - reflexivity.
  - destruct (LedgerEntry.entryType entry =? "credit")%string;
      [|destruct (LedgerEntry.entryType entry =? "debit")%string]; apply IH.
Qed.

(** A committed transfer moves the recorded amount, the number
    [amount.toNumber()] as the column holds it, from the ledger of the
    account its source names to the ledger of the account its destination
    names; when these are one account, the total of its ledger is as
    before. *)
Lemma committed_balances
    (defaults : Defaults) (source dest : string) (amount : Decimal.t)
    (currency : string) (s s' : Store) (tx : Transaction.t) :
  transfer defaults source dest amount currency s = (inr tx, s') ->
  exists a b,
    Uuid.parse source = Some a
    /\ Uuid.parse dest = Some b
    /\ Column.ofNumber (toNumber amount) = Some (Transaction.amount tx)
    /\ Decimal.lessThan (derivedBalance a (db s)) amount = false
    /\ (a <> b ->
        Spec.runningTotal 0 (entriesFor a (db s'))
        = Spec.runningTotal 0 (entriesFor a (db s)) - Transaction.amount tx
        /\ Spec.runningTotal 0 (entriesFor b (db s'))
           = Spec.runningTotal 0 (entriesFor b (db s)) + Transaction.amount tx)
    /\ (a = b ->
        Spec.runningTotal 0 (entriesFor a (db s'))
        = Spec.runningTotal 0 (entriesFor a (db s))).
Proof.
  intros Hrun.
  pose proof (transfer_outcome defaults source dest amount currency s) as Hout.
  rewrite Hrun in Hout.
  destruct Hout as (a & b & units & Ha & Hb & Hunits & Htx & _ & _ & Hentries
                    & _ & _ & _ & Hcheck).
  exists a, b. subst tx. simpl.
  split; [exact Ha|]. split; [exact Hb|]. split; [exact Hunits|].
  split; [exact Hcheck|].
  unfold entriesFor. rewrite Hentries, !filter_app. simpl. split.
  - intros Hdiff.
    assert (Hab : (a =? b)%string = false) by now apply String.eqb_neq.
    assert (Hba : (b =? a)%string = false)
      by (rewrite String.eqb_sym; exact Hab).
    rewrite !String.eqb_refl, Hab, Hba, !runningTotal_app. simpl.
    split; reflexivity.
  - intros <-. rewrite !String.eqb_refl, !runningTotal_app. simpl. lia.
Qed.

Lemma pow10_pos (places : nat) : 0 < Decimal.pow10 places.
Proof. unfold Decimal.pow10. apply Z.pow_pos_nonneg; lia. Qed.

(** What the check compares, for an amount of [units] units. *)
Lemma check_passed (balance units : Z) (amount : Decimal.t) :
  hasUnits amount units ->
  Decimal.lessThan (Decimal.ofColumn balance) amount = false ->
  units <= balance.
Proof.
  intros Hvalue Hcheck.
  destruct amount as [digits places| | |]; cbn [hasUnits] in Hvalue;
    try contradiction.
  unfold Decimal.lessThan, Decimal.ofColumn, Decimal.cmp in Hcheck.
  pose proof (pow10_pos places) as Hp.
  change (Decimal.pow10 8) with (10 ^ 8) in Hcheck.
  destruct (Z.compare_spec (balance * Decimal.pow10 places) (digits * 10 ^ 8))
    as [Heq|Hlt|Hgt]; try discriminate.
  - rewrite Hvalue in Heq. nia.
  - rewrite Hvalue in Hgt. nia.
Qed.

End BalancesAfterCommit.

Section ReferentialIntegrity.

Lemma accountExists_setBalance (accountId target : string) (balance : Z)
    (l : list Account.t) :
  existsb (fun a => Account.id a =? accountId)%string (map (setBalance target balance) l)
  = existsb (fun a => Account.id a =? accountId)%string l.
Proof.
  induction l as [|a l IH]; simpl; [reflexivity|].
  rewrite IH. f_equal. unfold setBalance.
  now destruct (Account.id a =? target)%string.
Qed.

Lemma accountById_exists (accountId : string) (d : Db) :
  accountById accountId d <> None -> accountExists accountId d = true.
Proof.
  unfold accountById, accountExists.
  induction (accounts d) as [|a l IH]; simpl; [congruence|].
  destruct (Account.id a =? accountId)%string; [reflexivity | exact IH].
Qed.

(** The foreign keys of the ledger hold after a transfer, committed or not. *)
Lemma transfer_preserves_foreignKeys
    (defaults : Defaults) (source dest : string) (amount : Decimal.t)
    (currency : string) (s : Store) :
  foreignKeys (db s) ->
  foreignKeys (db (snd (transfer defaults source dest amount currency s))).
Proof.
  intros Hfk.
  pose proof (transfer_outcome defaults source dest amount currency s) as Hout.
  destruct (transfer defaults source dest amount currency s) as [[err|tx] s'];
    simpl; [now rewrite Hout|].
  destruct Hout as (a & b & units & _ & _ & _ & Htx & _ & Htxs & Hentries
                    & (newSource & newDest & Haccounts) & Hsource & Hdest & _).
  assert (Hacc : forall accountId,
             accountExists accountId (db s) = true ->
             accountExists accountId (db s') = true).
  { intros accountId. unfold accountExists.
    now rewrite Haccounts, !accountExists_setBalance. }
  assert (Hold : forall transactionId,
             transactionExists transactionId (db s) = true ->
             transactionExists transactionId (db s') = true).
  { intros transactionId Hknown. unfold transactionExists in *.
    rewrite Htxs, existsb_app, Hknown. reflexivity. }
  assert (Hnew : transactionExists (transactionId defaults) (db s') = true).
  { unfold transactionExists. rewrite Htxs, existsb_app, Htx. simpl.
    rewrite String.eqb_refl. apply orb_true_r. }
  intros e He. rewrite Hentries in He.
  apply in_app_or in He. destruct He as [He|[He|[He|[]]]].
  - destruct (Hfk e He). auto.
  - subst e. simpl. split; [apply Hacc, accountById_exists, Hsource | exact Hnew].
  - subst e. simpl. split; [apply Hacc, accountById_exists, Hdest | exact Hnew].
Qed.

End ReferentialIntegrity.

(** C5. The check of [transfer] compares the derived balance with the
    requested decimal amount, but the debit it writes carries
    [amount.toNumber()]: with 999999999.99999999 on account A and nothing
    negative anywhere, a [POST /transfers] of 999999999.99999999 from A to B
    passes the validation and the check, is answered 201, debits 1000000000
    and leaves the balance of A at -0.00000001. *)
Theorem transfer_overdraws_by_rounding :
  let requested := Decimal.Finite 99999999999999999 8 in
  let outcome := postTransfers Example.defaults
                   (Example.body Example.accountA Example.accountB requested)
                   Example.wealthy in
  (forall accountId,
     0 <= Spec.runningTotal 0 (entriesFor accountId (db Example.wealthy)))
  /\ Decimal.lessThan (derivedBalance Example.accountA (db Example.wealthy)) requested
     = false
  /\ fst outcome
     = mkResponse 201
         (TransferPayload
            (transactionRow Example.defaults Example.accountA Example.accountB
               "USD" 100000000000000000))
  /\ fst (getBalance Example.accountA "USD" (snd outcome)) = inr (-1).
Proof.
  split.
  - intros accountId.
    unfold entriesFor, Example.wealthy, Example.funded.
    cbn [db ledgerEntries filter LedgerEntry.accountId].
    destruct (Example.accountA =? accountId)%string; vm_compute; discriminate.
  - split; [|split]; vm_compute; reflexivity.
Qed.

(** C7. Both accounts must exist: a transfer whose identifiers name an
    account that is missing throws "Account does not exist" after the two
    lock statements and the two lookups, and the tables are as before.  The
    currency of the accounts is never looked at: a transfer stated in EUR
    between two USD accounts commits and writes its record and its two
    entries in EUR. *)
Theorem transfer_ignores_account_currency :
  let outcome := transfer Example.defaults Example.accountA Example.accountB
                   (Decimal.Finite 4000 2) "EUR" Example.hundred in
  (forall defaults source dest amount currency s a b,
     spells source a ->
     spells dest b ->
     accountById a (db s) = None \/ accountById b (db s) = None ->
     transfer defaults source dest amount currency s
     = (inl (UnprocessableEntity "Account does not exist"),
        mkStore (db s) (log s ++ lockAndFetch source dest)))
  /\ map Account.currency (accounts (db Example.hundred)) = ["USD"; "USD"]
  /\ fst outcome
     = inr (transactionRow Example.defaults Example.accountA Example.accountB
              "EUR" 4000000000)
  /\ map LedgerEntry.currency (ledgerEntries (db (snd outcome)))
     = ["USD"; "EUR"; "EUR"]
  /\ statusCode
       (fst (postTransfers Example.defaults
               (mkTransferBody (Some Example.accountA) (Some Example.accountB)
                  (AmountDecimal (Decimal.Finite 4000 2)) (Some "EUR"))
               Example.hundred))
     = 201%nat.
Proof.
  split.
  - intros defaults source dest requested cur s a b Hsource Hdest Hmissing.
    apply spells_names in Hsource. apply spells_names in Hdest.
    now apply (transfer_missing_account defaults source dest requested cur s a b).
  - split; [|split; [|split]]; vm_compute; reflexivity.
Qed.

(** C9. The amount a transfer records is not the requested decimal but
    [amount.toNumber()], a binary64 number: a transfer of
    999999999.99999999 records 1000000000.00000000 on the transaction row and
    on both ledger entries. *)
Theorem transfer_records_rounded_amount :
  let requested := Decimal.Finite 99999999999999999 8 in
  let outcome := transfer Example.defaults Example.accountA Example.accountB
                   requested "USD" Example.wealthy in
  toNumber requested = Number.Finite 8388608000000000 (-23)
  /\ 8388608000000000 = 1000000000 * 2 ^ 23
  /\ fst outcome
     = inr (transactionRow Example.defaults Example.accountA Example.accountB
              "USD" 100000000000000000)
  /\ map LedgerEntry.amount
       (filter (fun e => (LedgerEntry.transactionId e
                          =? transactionId Example.defaults)%string)
               (ledgerEntries (db (snd outcome))))
     = [100000000000000000; 100000000000000000]
  /\ Decimal.equals (Decimal.ofColumn 100000000000000000) requested = false.
Proof.
  split; [|split; [|split; [|split]]]; vm_compute; reflexivity.
Qed.

Section Ledger.

Lemma entriesFor_unknown (accountId : string) (d : Db) :
  foreignKeys d -> accountExists accountId d = false -> entriesFor accountId d = [].
Proof.
  intros Hfk Hunknown. unfold entriesFor. apply filter_nothing.
  intros e He. destruct (Hfk e He) as [Hknown _].
  destruct (String.eqb_spec (LedgerEntry.accountId e) accountId) as [Heq|];
    [|reflexivity].
  subst. congruence.
Qed.

Lemma page_nil {A} (take skip : Z) : @page A take skip [] = [].
Proof.
  unfold page. simpl. rewrite skipn_nil, !firstn_nil.
  now destruct (0 <=? take).
Qed.

Lemma fitsInt_range (n : Z) : - 2 ^ 63 <= n < 2 ^ 63 -> fitsInt n = true.
Proof.
  intros Hn. unfold fitsInt.
  apply andb_true_intro. split; [apply Z.leb_le | apply Z.ltb_lt]; lia.
Qed.

Local Opaque page orderByCreatedAtDesc entriesFor Z.min fitsInt Uuid.parse.

(** For an identifier the client reads, a limit and an offset that fit the
    integers of the client, and an offset that is not negative, the route
    answers 200 with the requested page and the total count. *)
Lemma getLedger_run (id u : string) (limit offset : option Z) (s : Store) :
  Uuid.parse id = Some u ->
  0 <= orElse offset 0 < 2 ^ 63 ->
  - 2 ^ 63 <= orElse limit 100 ->
  let limitNum := Z.min (orElse limit 100) 1000 in
  let offsetNum := orElse offset 0 in
  let entries := page limitNum offsetNum (orderByCreatedAtDesc (entriesFor u (db s))) in
  let totalCount := Z.of_nat (List.length (entriesFor u (db s))) in
  getLedger id limit offset s
  = (mkResponse 200
       (LedgerPayload entries totalCount limitNum offsetNum
          (offsetNum + Z.of_nat (List.length entries) <? totalCount)),
     mkStore (db s) (log s ++ [LedgerEntryCount id; LedgerEntryFindMany id])).
Proof.
  intros Hid Hoffset Hlimit. simpl.
  unfold getLedger, ledgerEntry_count, ledgerEntry_findManyPaged, uuidParam.
  rewrite Hid. run.
  rewrite (fitsInt_range (orElse offset 0)) by lia.
  rewrite (fitsInt_range (Z.min (orElse limit 100) 1000)) by lia.
  simpl.
  destruct (orElse offset 0 <? 0) eqn:Hneg; [apply Z.ltb_lt in Hneg; lia|].
  simpl. now rewrite <- app_assoc.
Qed.

End Ledger.

(** C10 (as the code has it). For an identifier that spells a UUID that no
    account carries, a limit and an offset that are 32-bit
    integers, and an offset that is not negative,
    [GET /accounts/:id/ledger] answers 200, not a not-found error, with an
    empty entry list and total 0 (the ledger's entries refer to existing
    accounts, as the foreign key requires). *)
Theorem getLedger_unknown_account
    (id u : string) (limit offset : option Z) (s : Store) :
  spells id u ->
  foreignKeys (db s) ->
  accountExists u (db s) = false ->
  0 <= orElse offset 0 < 2 ^ 31 ->
  - 2 ^ 31 <= orElse limit 100 < 2 ^ 31 ->
  fst (getLedger id limit offset s)
  = mkResponse 200
      (LedgerPayload [] 0 (Z.min (orElse limit 100) 1000) (orElse offset 0) false).
Proof.
  intros Hid Hfk Hunknown Hoffset Hlimit. apply spells_parse in Hid.
  rewrite (getLedger_run id u limit offset s Hid) by lia.
  rewrite (entriesFor_unknown u (db s) Hfk Hunknown).
  change (orderByCreatedAtDesc []) with (@nil LedgerEntry.t).
  rewrite page_nil. simpl.
  replace (orElse offset 0 + 0 <? 0) with false; [reflexivity|].
  symmetry. apply Z.ltb_ge. lia.
Qed.

Lemma getLedger_unknown_account_witness :
  fst (getLedger Example.unknown (Some (-5)) (Some 3) Example.hundred)
  = mkResponse 200 (LedgerPayload [] 0 (-5) 3 false).
Proof.
  apply (getLedger_unknown_account Example.unknown Example.unknown (Some (-5))
           (Some 3) Example.hundred).
  - reflexivity.
  - intros e [He|[]]. subst e. split; reflexivity.
  - reflexivity.
  - simpl. lia.
  - simpl. lia.
Defined.

(** C10 as stated fails for an identifier that is not the text of a UUID,
    which no account carries, and for a negative offset: the storage client
    refuses both, and the route answers 500. *)
Lemma getLedger_refuses_some_requests :
  (forall a, In a (accounts (db Example.hundred)) -> Account.id a <> "abc")
  /\ fst (getLedger "abc" (Some 10) (Some 0) Example.hundred)
     = mkResponse 500 (ErrorPayload "Internal error")
  /\ accountExists Example.unknown (db Example.hundred) = false
  /\ fst (getLedger Example.unknown (Some 10) (Some (-1)) Example.hundred)
     = mkResponse 500 (ErrorPayload "Internal error").
Proof.
  split; [|split; [|split]]; try (vm_compute; reflexivity).
  intros a [<-|[<-|[]]]; discriminate.
Qed.


(** ** Further properties *)

Section BinaryRounding.

Lemma log2_bounds (n : Z) : 0 < n -> 2 ^ Z.log2 n <= n < 2 * 2 ^ Z.log2 n.
Proof.
  intros Hn. pose proof (Z.log2_spec n Hn) as H.
  rewrite Z.pow_succ_r in H by apply Z.log2_nonneg. lia.
Qed.

(** [2^f <= n/d < 2^(f+1)] for [f = floorLog2 n d], written without negative
    exponents. *)
Lemma floorLog2_bracket (n d : Z) :
  0 < n -> 0 < d ->
  let f := Number.floorLog2 n d in
  d * 2 ^ Z.max f 0 <= n * 2 ^ Z.max (- f) 0
  /\ n * 2 ^ Z.max (- f) 0 < 2 * (d * 2 ^ Z.max f 0).
Proof.
  intros Hn Hd. unfold Number.floorLog2. cbv zeta.
  pose proof (log2_bounds n Hn) as Hln. pose proof (log2_bounds d Hd) as Hld.
  pose proof (Z.log2_nonneg n) as Ha. pose proof (Z.log2_nonneg d) as Hb.
  set (a := Z.log2 n) in *. set (b := Z.log2 d) in *.
  destruct (0 <=? a - b) eqn:Hl.
  - apply Z.leb_le in Hl.
    assert (Hpa : 2 ^ a = 2 ^ b * 2 ^ (a - b)).
    { rewrite <- Z.pow_add_r by lia. f_equal. lia. }
    assert (Hpos : 0 < 2 ^ (a - b)) by (apply Z.pow_pos_nonneg; lia).
    assert (Hpb : 0 < 2 ^ b) by (apply Z.pow_pos_nonneg; lia).
    destruct (d * 2 ^ (a - b) <=? n) eqn:Hreach.
    + apply Z.leb_le in Hreach.
      rewrite (Z.max_l (a - b) 0), (Z.max_r (- (a - b)) 0) by lia.
      rewrite Z.pow_0_r, Z.mul_1_r.
      assert (2 ^ b * 2 ^ (a - b) <= d * 2 ^ (a - b))
        by (apply Z.mul_le_mono_nonneg_r; lia).
      lia.
    + apply Z.leb_gt in Hreach.
      destruct (Z.eq_dec (a - b) 0) as [Hz|Hnz].
      * rewrite Hz in *.
        change (Z.max (0 - 1) 0) with 0. change (Z.max (- (0 - 1)) 0) with 1.
        rewrite Z.pow_0_r, Z.pow_1_r in *. lia.
      * assert (Hhalf : 2 ^ (a - b) = 2 * 2 ^ (a - b - 1)).
        { rewrite <- Z.pow_succ_r by lia. f_equal. lia. }
        assert (Hpos' : 0 < 2 ^ (a - b - 1)) by (apply Z.pow_pos_nonneg; lia).
        rewrite (Z.max_l (a - b - 1) 0), (Z.max_r (- (a - b - 1)) 0) by lia.
        rewrite Z.pow_0_r, Z.mul_1_r.
        assert (d * 2 ^ (a - b - 1) < (2 * 2 ^ b) * 2 ^ (a - b - 1))
          by (apply Z.mul_lt_mono_pos_r; lia).
        rewrite Hhalf in Hpa, Hreach. lia.
  - apply Z.leb_gt in Hl.
    assert (Hpb : 2 ^ b = 2 ^ a * 2 ^ (- (a - b))).
    { rewrite <- Z.pow_add_r by lia. f_equal. lia. }
    assert (Hpos : 0 < 2 ^ (- (a - b))) by (apply Z.pow_pos_nonneg; lia).
    assert (Hpa : 0 < 2 ^ a) by (apply Z.pow_pos_nonneg; lia).
    assert (Hdouble : 2 ^ (- (a - b - 1)) = 2 * 2 ^ (- (a - b))).
    { rewrite <- Z.pow_succ_r by lia. f_equal. lia. }
    destruct (d <=? n * 2 ^ (- (a - b))) eqn:Hreach.
    + apply Z.leb_le in Hreach.
      rewrite (Z.max_r (a - b) 0), (Z.max_l (- (a - b)) 0) by lia.
      rewrite Z.pow_0_r, Z.mul_1_r.
      assert (2 ^ a * 2 ^ (- (a - b)) <= n * 2 ^ (- (a - b)))
        by (apply Z.mul_le_mono_nonneg_r; lia).
      assert (n * 2 ^ (- (a - b)) < 2 * 2 ^ a * 2 ^ (- (a - b)))
        by (apply Z.mul_lt_mono_pos_r; lia).
      lia.
    + apply Z.leb_gt in Hreach.
      rewrite (Z.max_r (a - b - 1) 0), (Z.max_l (- (a - b - 1)) 0) by lia.
      rewrite Z.pow_0_r, Z.mul_1_r, Hdouble.
      assert (2 ^ a * 2 ^ (- (a - b)) <= n * 2 ^ (- (a - b)))
        by (apply Z.mul_le_mono_nonneg_r; lia).
      lia.
Qed.

Lemma roundHalfEven_error (p q : Z) :
  0 <= p -> 0 < q ->
  0 <= Number.roundHalfEven p q
  /\ - q <= 2 * (Number.roundHalfEven p q * q - p) <= q.
Proof.
  intros Hp Hq. unfold Number.roundHalfEven.
  pose proof (Z.div_mod p q ltac:(lia)) as Hdiv.
  pose proof (Z.mod_pos_bound p q Hq) as Hmod.
  pose proof (Z.div_pos p q Hp Hq) as Hk.
  set (k := p / q) in *. set (r := p mod q) in *. clearbody k r.
  assert (Hdown : k * q - p = - r) by (rewrite Hdiv; ring).
  assert (Hup : (k + 1) * q - p = q - r) by (rewrite Hdiv; ring).
  destruct (Z.compare_spec (2 * r) q) as [Hcmp|Hcmp|Hcmp].
  - destruct (Z.even k); rewrite ?Hdown, ?Hup; clear Hdiv Hdown Hup; lia.
  - rewrite Hdown. clear Hdiv Hdown Hup. lia.
  - rewrite Hup. clear Hdiv Hdown Hup. lia.
Qed.

End BinaryRounding.

Section ExactAmounts.

Lemma roundHalfEven_near (p q u : Z) :
  0 < q -> - q < 2 * (p - u * q) < q -> Number.roundHalfEven p q = u.
Proof.
  intros Hq Hnear. unfold Number.roundHalfEven.
  set (X := p - u * q) in *.
  destruct (Z_lt_le_dec X 0) as [Hneg|Hpos].
  - assert (Hdiv : p / q = u - 1).
    { symmetry. apply (Z.div_unique _ _ _ (q + X)); [left; lia|]. unfold X. ring. }
    assert (Hmod : p mod q = q + X).
    { symmetry. apply (Z.mod_unique _ _ (u - 1)); [left; lia|]. unfold X. ring. }
    rewrite Hdiv, Hmod.
    destruct (Z.compare_spec (2 * (q + X)) q); lia.
  - assert (Hdiv : p / q = u).
    { symmetry. apply (Z.div_unique _ _ _ X); [left; lia|]. unfold X. ring. }
    assert (Hmod : p mod q = X).
    { symmetry. apply (Z.mod_unique _ _ u); [left; lia|]. unfold X. ring. }
    rewrite Hdiv, Hmod.
    destruct (Z.compare_spec (2 * X) q); lia.
Qed.

Lemma roundHalfAway_near (p q u : Z) :
  0 < q -> (2 * u - 1) * q <= 2 * p < (2 * u + 1) * q ->
  Column.roundHalfAway p q = u.
Proof.
  intros Hq Hnear. unfold Column.roundHalfAway.
  symmetry. apply (Z.div_unique _ _ _ (2 * p + q - u * (2 * q))); [left; lia|].
  ring.
Qed.

(** The search for the place of the sixteenth digit stops at the first
    place that fits. *)
Lemma sixteenth_most (fuel : nat) (n d q q' : Z) :
  q <= q' ->
  Column.below n d (16 + q') = true ->
  Column.sixteenth fuel n d q <= q'.
Proof.
  revert q. induction fuel as [|fuel IH]; intros q Hrange Hfits.
  - simpl. lia.
  - cbn [Column.sixteenth].
    destruct (Column.below n d (16 + q)) eqn:Hhere; [lia|].
    assert (q <> q') by (intros ->; congruence).
    apply IH; [lia | exact Hfits].
Qed.

(** The estimate the search starts from, for a value below [2^27]. *)
Lemma placeBelow_small (m j : Z) :
  0 < m -> 0 <= j -> m < 2 ^ (27 + j) -> Column.placeBelow m (2 ^ j) <= -8.
Proof.
  intros Hm Hj Hsmall. unfold Column.placeBelow.
  rewrite Z.log2_pow2 by exact Hj.
  apply Z.log2_lt_pow2 in Hsmall; [|exact Hm].
  set (l := Z.log2 m - j - 1).
  assert (Hl : l <= 25) by (unfold l; lia).
  destruct (0 <=? l) eqn:Hsign.
  - apply Z.leb_le in Hsign.
    assert (l * 30102 / 100000 <= 25 * 30102 / 100000)
      by (apply Z.div_le_mono; lia).
    change (25 * 30102 / 100000) with 7 in H. lia.
  - apply Z.leb_gt in Hsign.
    assert (l * 30103 / 100000 < 0)
      by (apply Z.div_lt_upper_bound; lia).
    lia.
Qed.

(** A positive value of [u] units, [u < 2^52], written with any number of
    places, goes through [toNumber] and into the column unchanged: the
    binary64 numbers around it are less than one unit apart, and so are the
    decimals of sixteen digits. *)
Lemma nearest_recorded_exactly (n d u : Z) :
  0 < n -> 0 < d -> 0 < u < 2 ^ 52 -> n * 10 ^ 8 = u * d ->
  exists m e,
    Number.nearest n d = Some (m, e) /\ 0 < m /\ Column.unitsOf m e = u.
Proof.
  intros Hn Hd Hu Hvalue.
  pose proof (floorLog2_bracket n d Hn Hd) as Hbracket. cbv zeta in Hbracket.
  destruct Hbracket as [Hlow Hhigh].
  unfold Number.nearest.
  set (f := Number.floorLog2 n d) in *.
  assert (Hf : -27 <= f < 52).
  { split.
    - destruct (Z_lt_le_dec f (-27)) as [Hsmall|]; [exfalso|assumption].
      rewrite (Z.max_r f 0), (Z.max_l (- f) 0) in Hhigh by lia.
      rewrite Z.pow_0_r, Z.mul_1_r in Hhigh.
      assert (2 ^ 28 <= 2 ^ (- f)) by (apply Z.pow_le_mono_r; lia).
      assert (n * 2 ^ 28 <= n * 2 ^ (- f)) by (apply Z.mul_le_mono_nonneg_l; lia).
      assert (d <= n * 10 ^ 8) by nia.
      change (2 ^ 28) with 268435456 in *. change (10 ^ 8) with 100000000 in *.
      lia.
    - destruct (Z_lt_le_dec f 52) as [|Hbig]; [assumption|exfalso].
      rewrite (Z.max_l f 0), (Z.max_r (- f) 0) in Hlow by lia.
      rewrite Z.pow_0_r, Z.mul_1_r in Hlow.
      assert (2 ^ 52 <= 2 ^ f) by (apply Z.pow_le_mono_r; lia).
      assert (d * 2 ^ 52 <= d * 2 ^ f) by (apply Z.mul_le_mono_nonneg_l; lia).
      assert (u * d < 2 ^ 52 * d) by (apply Z.mul_lt_mono_pos_r; lia).
      change (10 ^ 8) with 100000000 in *. nia. }
  rewrite (Z.max_l (f - 52) (-1074)) by lia.
  replace (0 <=? f - 52) with false by (symmetry; apply Z.leb_gt; lia).
  simpl andb. cbv iota.
  set (E := 2 ^ (- (f - 52))).
  assert (HE : 0 < E) by (apply Z.pow_pos_nonneg; lia).
  destruct (roundHalfEven_error (n * E) d ltac:(nia) Hd) as [Hm Herr].
  set (m := Number.roundHalfEven (n * E) d) in *.
  exists m, (f - 52). split; [reflexivity|].
  (* the numbers around [n / d] are less than one unit apart *)
  assert (HE8 : 10 ^ 8 < E).
  { unfold E. destruct (Z_lt_le_dec f 0).
    - assert (2 ^ 52 <= 2 ^ (- (f - 52))) by (apply Z.pow_le_mono_r; lia).
      change (10 ^ 8) with 100000000. change (2 ^ 52) with 4503599627370496 in *.
      lia.
    - rewrite (Z.max_l f 0), (Z.max_r (- f) 0) in Hlow by lia.
      rewrite Z.pow_0_r, Z.mul_1_r in Hlow.
      assert (Hf0 : 0 < 2 ^ f) by (apply Z.pow_pos_nonneg; lia).
      assert (Hsplit : 2 ^ (- (f - 52)) * 2 ^ f = 2 ^ 52).
      { rewrite <- Z.pow_add_r by lia. f_equal. lia. }
      assert (Hud : 10 ^ 8 * 2 ^ f * d <= u * d).
      { rewrite <- Hvalue.
        replace (10 ^ 8 * 2 ^ f * d) with (d * 2 ^ f * 10 ^ 8) by ring.
        apply Z.mul_le_mono_nonneg_r; [now vm_compute | exact Hlow]. }
      apply Z.mul_le_mono_pos_r in Hud; [|exact Hd].
      apply (Z.mul_lt_mono_pos_r (2 ^ f)); [exact Hf0|]. lia. }
  assert (HE27 : 2 ^ 27 <= E).
  { unfold E. destruct (Z_lt_le_dec (- (f - 52)) 27) as [Hlow27|];
      [exfalso | apply Z.pow_le_mono_r; lia].
    assert (2 ^ (- (f - 52)) <= 2 ^ 26) by (apply Z.pow_le_mono_r; lia).
    fold E in H. change (2 ^ 26) with 67108864 in H.
    change (10 ^ 8) with 100000000 in HE8. lia. }
  set (X := m * 10 ^ 8 - u * E).
  assert (HX : d * (2 * X) = 10 ^ 8 * (2 * (m * d - n * E))).
  { unfold X.
    replace (d * (2 * (m * 10 ^ 8 - u * E)))
      with (2 * (m * d * 10 ^ 8) - 2 * E * (u * d)) by ring.
    rewrite <- Hvalue. ring. }
  assert (HXbound : - 10 ^ 8 <= 2 * X <= 10 ^ 8).
  { split.
    - apply (Z.mul_le_mono_pos_l _ _ d Hd). rewrite HX.
      replace (d * - 10 ^ 8) with (10 ^ 8 * - d) by ring.
      apply Z.mul_le_mono_nonneg_l; [now vm_compute | lia].
    - apply (Z.mul_le_mono_pos_l _ _ d Hd). rewrite HX.
      replace (d * 10 ^ 8) with (10 ^ 8 * d) by ring.
      apply Z.mul_le_mono_nonneg_l; [now vm_compute | lia]. }
  assert (Hmpos : 0 < m).
  { assert (E <= u * E) by nia.
    assert (0 < m * 10 ^ 8) by (unfold X in HXbound; lia).
    change (10 ^ 8) with 100000000 in *. lia. }
  split; [exact Hmpos|].
  (* the place of the sixteenth digit is the eighth decimal or beyond *)
  unfold Column.unitsOf.
  replace (0 <=? f - 52) with false by (symmetry; apply Z.leb_gt; lia).
  fold E.
  assert (Hbelow : m * 10 ^ 8 < 10 ^ 8 * (E * 10 ^ 8)).
  { assert (u * E < 2 ^ 52 * E) by (apply Z.mul_lt_mono_pos_r; lia).
    assert (Hgap : 2 ^ 52 * E + 10 ^ 8 <= 10 ^ 8 * (E * 10 ^ 8)).
    { change (2 ^ 52) with 4503599627370496.
      change (10 ^ 8) with 100000000 in *. lia. }
    unfold X in HXbound. lia. }
  assert (Hstart : Column.placeBelow m E <= -8).
  { unfold E. apply placeBelow_small; [exact Hmpos | lia |].
    replace (27 + - (f - 52)) with (- (f - 52) + 27) by ring.
    rewrite Z.pow_add_r by lia. fold E.
    assert (u * E < 2 ^ 52 * E) by (apply Z.mul_lt_mono_pos_r; lia).
    apply (Z.mul_lt_mono_pos_l (10 ^ 8)); [now vm_compute|].
    change (2 ^ 52) with 4503599627370496 in *.
    change (2 ^ 27) with 134217728. change (10 ^ 8) with 100000000 in *.
    unfold X in HXbound. lia. }
  assert (Hq : Column.sixteenth 8 m E (Column.placeBelow m E) <= -8).
  { apply sixteenth_most; [exact Hstart|].
    unfold Column.below. change (0 <=? 16 + -8) with true. cbv iota.
    change (16 + -8) with 8. apply Z.ltb_lt.
    apply (Z.mul_lt_mono_pos_l (10 ^ 8)); [now vm_compute | lia]. }
  set (q := Column.sixteenth 8 m E (Column.placeBelow m E)) in *. clearbody q.
  replace (0 <=? q) with false by (symmetry; apply Z.leb_gt; lia).
  destruct (Z.eq_dec q (-8)) as [->|Hbeyond].
  - change (0 <=? -8 + 8) with true. cbv iota.
    change (- -8) with 8. change (-8 + 8) with 0.
    rewrite Z.pow_0_r, Z.mul_1_r.
    apply roundHalfEven_near; [exact HE|].
    fold X. lia.
  - replace (0 <=? q + 8) with false by (symmetry; apply Z.leb_gt; lia).
    set (T := 10 ^ (- (q + 8))).
    assert (HT : 10 <= T).
    { unfold T. change 10 with (10 ^ 1) at 1. apply Z.pow_le_mono_r; lia. }
    assert (Hsplit : 10 ^ (- q) = 10 ^ 8 * T).
    { unfold T. rewrite <- Z.pow_add_r by lia. f_equal. lia. }
    rewrite Hsplit.
    destruct (roundHalfEven_error (m * (10 ^ 8 * T)) E) as [Hs Hclose];
      [apply Z.mul_nonneg_nonneg; [lia | apply Z.mul_nonneg_nonneg; [now vm_compute | lia]]
      | exact HE |].
    set (digits := Number.roundHalfEven (m * (10 ^ 8 * T)) E) in *. clearbody digits.
    apply roundHalfAway_near; [lia|].
    assert (Hvalue' : m * (10 ^ 8 * T) = u * E * T + X * T) by (unfold X; ring).
    rewrite Hvalue' in Hclose.
    change (2 ^ 27) with 134217728 in HE27.
    change (10 ^ 8) with 100000000 in HXbound.
    assert (HET : 0 < E * T) by (apply Z.mul_pos_pos; lia).
    assert (HXT : - (100000000 * T) <= 2 * (X * T) <= 100000000 * T).
    { split.
      - replace (2 * (X * T)) with (2 * X * T) by ring.
        replace (- (100000000 * T)) with (- 100000000 * T) by ring.
        apply Z.mul_le_mono_nonneg_r; lia.
      - replace (2 * (X * T)) with (2 * X * T) by ring.
        apply Z.mul_le_mono_nonneg_r; lia. }
    assert (Hroom : 100000000 * T + E < E * T).
    { assert (134217728 * T <= E * T) by (apply Z.mul_le_mono_nonneg_r; lia).
      assert (E * 10 <= E * T) by (apply Z.mul_le_mono_nonneg_l; lia).
      lia. }
    set (UET := u * E * T) in *. set (XT := X * T) in *.
    set (DE := digits * E) in *. set (ET := E * T) in *.
    split.
    + apply Z.mul_le_mono_pos_r with (p := E); [exact HE|].
      replace ((2 * u - 1) * T * E) with (2 * UET - ET) by (unfold UET, ET; ring).
      replace (2 * digits * E) with (2 * DE) by (unfold DE; ring).
      lia.
    + apply Z.mul_lt_mono_pos_r with (p := E); [exact HE|].
      replace ((2 * u + 1) * T * E) with (2 * UET + ET) by (unfold UET, ET; ring).
      replace (2 * digits * E) with (2 * DE) by (unfold DE; ring).
      lia.
Qed.

End ExactAmounts.


Section ExactColumns.

Lemma column_of_small_number (d : Decimal.t) (units : Z) :
  hasUnits d units ->
  - 2 ^ 52 < units < 2 ^ 52 ->
  Column.ofNumber (toNumber d) = Some units.
Proof.
  destruct d as [digits places| | |]; simpl; try contradiction.
  intros Hvalue Hrange.
  pose proof (pow10_pos places) as Hpos.
  assert (Hsmall : (Z.abs units <? 10 ^ 20) = true).
  { apply Z.ltb_lt. change (2 ^ 52) with 4503599627370496 in Hrange.
    change (10 ^ 20) with 100000000000000000000. lia. }
  destruct digits as [|n|n].
  - assert (units = 0) by nia. subst units. reflexivity.
  - assert (Hu : 0 < units < 2 ^ 52) by nia.
    destruct (nearest_recorded_exactly (Z.pos n) (Decimal.pow10 places) units
                ltac:(lia) Hpos Hu Hvalue) as (m & e & Hnear & Hm & Hunits).
    rewrite Hnear. unfold Column.ofNumber.
    replace (0 <=? m) with true by (symmetry; apply Z.leb_le; lia).
    now rewrite Hunits, Hsmall.
  - assert (Hu : 0 < - units < 2 ^ 52) by nia.
    destruct (nearest_recorded_exactly (Z.pos n) (Decimal.pow10 places) (- units)
                ltac:(lia) Hpos Hu ltac:(lia)) as (m & e & Hnear & Hm & Hunits).
    change (- Z.neg n) with (Z.pos n). rewrite Hnear. unfold Column.ofNumber.
    replace (0 <=? - m) with false by (symmetry; apply Z.leb_gt; lia).
    rewrite Z.opp_involutive, Hunits, Z.opp_involutive.
    now rewrite Hsmall.
Qed.

End ExactColumns.

(** A value of [units] units of 10^-8, below 2^52 units in absolute value
    (45035996.27370496) and written with any number of places, goes through
    [toNumber] and into a [DECIMAL(20,8)] column unchanged. *)
Theorem small_amount_recorded_exactly (d : Decimal.t) (units : Z) :
  hasUnits d units ->
  - 2 ^ 52 < units < 2 ^ 52 ->
  Column.ofNumber (toNumber d) = Some units.
Proof. exact (column_of_small_number d units). Qed.

Lemma small_amount_recorded_exactly_witness :
  Column.ofNumber (toNumber (Decimal.Finite 4000 2)) = Some 4000000000.
Proof.
  apply (small_amount_recorded_exactly (Decimal.Finite 4000 2) 4000000000).
  - reflexivity.
  - vm_compute. split; reflexivity.
Defined.

(** The locks come first, in the order of the texts: the two texts a
    transfer locks are the two identifiers of the request with the smaller
    text first; the lock on the first is the first statement sent, before
    any read or write; when its cast to [uuid] fails nothing else is sent;
    otherwise the lock on the second follows and no later statement is a
    lock. *)
Theorem transfer_locks_first
    (defaults : Defaults) (source dest : string) (amount : Decimal.t)
    (currency : string) (s : Store) :
  let first := nth 0 (sort [source; dest]) "" in
  let second := nth 1 (sort [source; dest]) "" in
  ((first = source /\ second = dest) \/ (first = dest /\ second = source))
  /\ String.leb first second = true
  /\ exists rest,
       issued s (snd (transfer defaults source dest amount currency s))
       = SelectForUpdate first :: rest
       /\ match Uuid.cast first with
          | None => rest = []
          | Some _ =>
              exists rest',
                rest = SelectForUpdate second :: rest'
                /\ filter isLock rest' = []
          end.
Proof.
  cbv zeta. split; [apply sort_pair_cases|]. split; [apply sort_pair_ordered|].
  apply transfer_lock_log.
Qed.

Section LockStatements.


End LockStatements.


(** A [POST /transfers] call whose source and destination identifiers are
    the same text is answered 400 by the validation of the route, and the
    store is returned as it was received: no lock is requested and no other
    statement is issued. *)
Theorem self_transfer_rejected_at_validation
    (defaults : Defaults) (body : TransferBody) (s : Store) :
  sourceAccountId body = destinationAccountId body ->
  exists message,
    postTransfers defaults body s = (mkResponse 400 (ErrorPayload message), s).
Proof.
  intros Hsame. unfold postTransfers, badRequest. rewrite Hsame.
  destruct (falsy (destinationAccountId body) || falsy (destinationAccountId body)
            || match amount body with AmountUndefined => true | _ => false end
            || falsy (currency body)).
  - eexists. reflexivity.
  - assert (Heq : strictEquals (destinationAccountId body) (destinationAccountId body)
                  = true).
    { destruct (destinationAccountId body); simpl;
        [apply String.eqb_refl | reflexivity]. }
    rewrite Heq. eexists. reflexivity.
Qed.

Lemma self_transfer_rejected_at_validation_witness :
  exists message,
    postTransfers Example.defaults
      (Example.body Example.accountA Example.accountA (Decimal.Finite 1000 2))
      Example.hundred
    = (mkResponse 400 (ErrorPayload message), Example.hundred).
Proof.
  apply (self_transfer_rejected_at_validation Example.defaults
           (Example.body Example.accountA Example.accountA (Decimal.Finite 1000 2))
           Example.hundred).
  reflexivity.
Defined.

Section SmallAmounts.

(** A committed transfer of an amount below 2^52 units (45035996.27370496)
    records exactly the requested amount, on the transaction row and on both
    entries. *)
Lemma transfer_records_exactly
    (defaults : Defaults) (source dest : string) (amount : Decimal.t)
    (currency : string) (s s' : Store) (tx : Transaction.t) (units : Z) :
  transfer defaults source dest amount currency s = (inr tx, s') ->
  hasUnits amount units ->
  - 2 ^ 52 < units < 2 ^ 52 ->
  Transaction.amount tx = units.
Proof.
  intros Hrun Hvalue Hbound.
  destruct (committed_balances defaults source dest amount currency s s' tx Hrun)
    as (a & b & _ & _ & Hrecorded & _).
  rewrite (column_of_small_number amount units Hvalue Hbound) in Hrecorded.
  now injection Hrecorded as <-.
Qed.

End SmallAmounts.

Section TransferRoute.

Lemma errorHandler_not_created (err : Error) :
  statusCode (errorHandler err) <> 201%nat.
Proof. destruct err; simpl; discriminate. Qed.

(** A 201 answer comes from a body that passed every validation and from a
    transfer that committed. *)
Lemma postTransfers_created_inv
    (defaults : Defaults) (body : TransferBody) (s : Store) :
  statusCode (fst (postTransfers defaults body s)) = 201%nat ->
  exists source dest requested cur tx s',
    sourceAccountId body = Some source
    /\ destinationAccountId body = Some dest
    /\ amount body = AmountDecimal requested
    /\ currency body = Some cur
    /\ source <> dest
    /\ Decimal.isNaN requested = false
    /\ Decimal.lessThanOrEqualTo requested Decimal.zero = false
    /\ String.length cur = 3%nat
    /\ transfer defaults source dest requested (toUpperCase cur) s = (inr tx, s')
    /\ postTransfers defaults body s = (mkResponse 201 (TransferPayload tx), s').
Proof.
  unfold postTransfers, badRequest.
  destruct (falsy (sourceAccountId body) || falsy (destinationAccountId body)
            || match amount body with AmountUndefined => true | _ => false end
            || falsy (currency body)); [simpl; discriminate|].
  destruct (strictEquals (sourceAccountId body) (destinationAccountId body))
    eqn:Hsame; [simpl; discriminate|].
  destruct (sourceAccountId body) as [source|],
    (destinationAccountId body) as [dest|], (amount body) as [| |requested],
    (currency body) as [cur|]; simpl; try discriminate.
  destruct (Decimal.isNaN requested) eqn:Hnan; [simpl; discriminate|].
  destruct (Decimal.lessThanOrEqualTo requested Decimal.zero) eqn:Hle;
    [simpl; discriminate|].
  destruct (String.length cur =? 3)%nat eqn:Hlen; [|simpl; discriminate].
  simpl.
  destruct (transfer defaults source dest requested (toUpperCase cur) s)
    as [[err|tx] s'] eqn:Hrun; simpl.
  - intros Hstatus. now apply errorHandler_not_created in Hstatus.
  - intros _. exists source, dest, requested, cur, tx, s'.
    simpl in Hsame. apply String.eqb_neq in Hsame. apply Nat.eqb_eq in Hlen.
    repeat split; auto.
Qed.

End TransferRoute.

Section SmallTransfers.

Lemma transfer_moves_small_amount
    (defaults : Defaults) (source dest cur : string) (requested : Decimal.t)
    (units : Z) (s : Store) (a b : string) :
  let outcome := postTransfers defaults
                   (mkTransferBody (Some source) (Some dest)
                      (AmountDecimal requested) (Some cur)) s in
  statusCode (fst outcome) = 201%nat ->
  Uuid.parse source = Some a ->
  Uuid.parse dest = Some b ->
  withinPrecision 0 (entriesFor a (db s)) = true ->
  hasUnits requested units ->
  units < 2 ^ 52 ->
  0 < units
  /\ 0 <= Spec.runningTotal 0 (entriesFor a (db (snd outcome)))
  /\ (a <> b ->
      Spec.runningTotal 0 (entriesFor a (db (snd outcome)))
      = Spec.runningTotal 0 (entriesFor a (db s)) - units
      /\ Spec.runningTotal 0 (entriesFor b (db (snd outcome)))
         = Spec.runningTotal 0 (entriesFor b (db s)) + units)
  /\ (a = b ->
      Spec.runningTotal 0 (entriesFor a (db (snd outcome)))
      = Spec.runningTotal 0 (entriesFor a (db s))).
Proof.
  intros outcome Hstatus Hsource Hdest Hwithin Hvalue Hbound. subst outcome.
  destruct (postTransfers_created_inv _ _ _ Hstatus)
    as (source' & dest' & requested' & cur' & tx & s' & Hs & Hd & Ha & Hc
        & _ & _ & Hle & _ & Hrun & Hanswer).
  simpl in Hs, Hd, Ha, Hc.
  injection Hs as <-. injection Hd as <-. injection Ha as <-. injection Hc as <-.
  rewrite Hanswer. simpl.
  assert (Hunits : 0 < units).
  { destruct requested as [digits places| | |]; cbn [hasUnits] in Hvalue;
      try contradiction.
    unfold Decimal.lessThanOrEqualTo, Decimal.zero, Decimal.cmp in Hle.
    pose proof (pow10_pos places) as Hp.
    change (Decimal.pow10 0) with 1 in Hle. rewrite Z.mul_1_r in Hle.
    destruct (Z.compare_spec digits (0 * Decimal.pow10 places)); try discriminate.
    change (10 ^ 8) with 100000000 in *. nia. }
  assert (Hamount : Transaction.amount tx = units).
  { apply (transfer_records_exactly defaults source dest requested
             (toUpperCase cur) s s' tx units Hrun Hvalue).
    change (2 ^ 52) with 4503599627370496 in *. lia. }
  destruct (committed_balances defaults source dest requested (toUpperCase cur)
              s s' tx Hrun) as (a' & b' & Ha' & Hb' & _ & Hcheck & Hmoved & Hself).
  rewrite Hsource in Ha'. injection Ha' as <-.
  rewrite Hdest in Hb'. injection Hb' as <-.
  rewrite Hamount in *.
  unfold derivedBalance in Hcheck.
  rewrite (derived_withinPrecision a (db s) Hwithin) in Hcheck.
  pose proof (check_passed _ units requested Hvalue Hcheck) as Hfunds.
  split; [exact Hunits|]. split; [|split; assumption].
  destruct (string_dec a b) as [Heq|Hdiff].
  - rewrite (Hself Heq). lia.
  - destruct (Hmoved Hdiff) as [-> _]. lia.
Qed.

End SmallTransfers.

(** [POST /transfers] with an amount of at most eight decimals below 2^52
    units (45035996.27370496), from an account whose running totals have at
    most twenty digits: a 201 answer means that the amount is positive, that
    the balance of the source is not negative afterwards and, when the
    source and the destination are two accounts, that exactly the requested
    amount was moved from the ledger of the one to the ledger of the other;
    when the two identifiers name one account its balance is as before. *)
Theorem small_transfer_keeps_source_nonnegative
    (defaults : Defaults) (source dest cur : string) (requested : Decimal.t)
    (units : Z) (s : Store) (a b : string) :
  let outcome := postTransfers defaults
                   (mkTransferBody (Some source) (Some dest)
                      (AmountDecimal requested) (Some cur)) s in
  statusCode (fst outcome) = 201%nat ->
  Uuid.parse source = Some a ->
  Uuid.parse dest = Some b ->
  withinPrecision 0 (entriesFor a (db s)) = true ->
  hasUnits requested units ->
  units < 2 ^ 52 ->
  0 < units
  /\ 0 <= Spec.runningTotal 0 (entriesFor a (db (snd outcome)))
  /\ (a <> b ->
      Spec.runningTotal 0 (entriesFor a (db (snd outcome)))
      = Spec.runningTotal 0 (entriesFor a (db s)) - units
      /\ Spec.runningTotal 0 (entriesFor b (db (snd outcome)))
         = Spec.runningTotal 0 (entriesFor b (db s)) + units)
  /\ (a = b ->
      Spec.runningTotal 0 (entriesFor a (db (snd outcome)))
      = Spec.runningTotal 0 (entriesFor a (db s))).
Proof.
  exact (transfer_moves_small_amount defaults source dest cur requested units s a b).
Qed.

Lemma small_transfer_keeps_source_nonnegative_witness :
  let outcome := postTransfers Example.defaults
                   (mkTransferBody (Some Example.upperA) (Some Example.accountB)
                      (AmountDecimal (Decimal.Finite 4000 2)) (Some "usd"))
                   Example.busy in
  0 < 4000000000
  /\ 0 <= Spec.runningTotal 0 (entriesFor Example.accountA (db (snd outcome)))
  /\ (Example.accountA <> Example.accountB ->
      Spec.runningTotal 0 (entriesFor Example.accountA (db (snd outcome)))
      = Spec.runningTotal 0 (entriesFor Example.accountA (db Example.busy))
        - 4000000000
      /\ Spec.runningTotal 0 (entriesFor Example.accountB (db (snd outcome)))
         = Spec.runningTotal 0 (entriesFor Example.accountB (db Example.busy))
           + 4000000000)
  /\ (Example.accountA = Example.accountB ->
      Spec.runningTotal 0 (entriesFor Example.accountA (db (snd outcome)))
      = Spec.runningTotal 0 (entriesFor Example.accountA (db Example.busy))).
Proof.
  apply (small_transfer_keeps_source_nonnegative Example.defaults
           Example.upperA Example.accountB "usd" (Decimal.Finite 4000 2)
           4000000000 Example.busy Example.accountA Example.accountB).
  - vm_compute. reflexivity.
  - reflexivity.
  - reflexivity.
  - reflexivity.
  - reflexivity.
  - vm_compute. reflexivity.
Defined.


Section CachedBalance.

Lemma setBalance_id (x : string) (v : Z) (a : Account.t) :
  Account.id (setBalance x v a) = Account.id a.
Proof. unfold setBalance. now destruct (Account.id a =? x)%string. Qed.

Lemma setBalance_identity (x : string) (v : Z) (a : Account.t) :
  identity (setBalance x v a) = identity a.
Proof. unfold setBalance. now destruct (Account.id a =? x)%string. Qed.

Lemma find_setBalance (x y : string) (v : Z) (l : list Account.t) :
  find (fun a => Account.id a =? y)%string (map (setBalance x v) l)
  = option_map (setBalance x v) (find (fun a => Account.id a =? y)%string l).
Proof.
  induction l as [|a l IH]; simpl; [reflexivity|].
  rewrite setBalance_id. now destruct (Account.id a =? y)%string.
Qed.

Lemma find_setBalance_other (x y : string) (v : Z) (l : list Account.t) :
  y <> x ->
  find (fun a => Account.id a =? y)%string (map (setBalance x v) l)
  = find (fun a => Account.id a =? y)%string l.
Proof.
  intros Hdiff. rewrite find_setBalance.
  destruct (find (fun a => Account.id a =? y)%string l) as [a|] eqn:Hfind;
    [|reflexivity].
  apply find_some in Hfind. destruct Hfind as [_ Hid].
  apply String.eqb_eq in Hid. simpl. unfold setBalance.
  replace (Account.id a =? x)%string with false; [reflexivity|].
  symmetry. apply String.eqb_neq. congruence.
Qed.

End CachedBalance.

Section LedgerInvariants.

Variable defaults : Defaults.
Variables source dest : string.
Variable amount : Decimal.t.
Variable currency : string.
Variable s : Store.

Let s' := snd (transfer defaults source dest amount currency s).

(** Whatever its outcome, a transfer only appends: the rows there were are
    still there, in place and unchanged, and every new ledger entry is on
    the account the source or the destination identifier names. *)
Theorem transfer_only_appends :
  exists newTransactions newEntries,
    transactions (db s') = transactions (db s) ++ newTransactions
    /\ ledgerEntries (db s') = ledgerEntries (db s) ++ newEntries
    /\ forall e, In e newEntries ->
         Uuid.parse source = Some (LedgerEntry.accountId e)
         \/ Uuid.parse dest = Some (LedgerEntry.accountId e).
Proof.
  subst s'.
  pose proof (transfer_outcome defaults source dest amount currency s) as Hout.
  destruct (transfer defaults source dest amount currency s) as [[err|tx] st]; simpl.
  - exists [], []. rewrite Hout, !app_nil_r. repeat split; auto. intros e [].
  - destruct Hout as (a & b & units & Ha & Hb & _ & _ & _ & Htxs & Hentries & _).
    exists [tx], [debitRow defaults a currency units;
                  creditRow defaults b currency units].
    repeat split; auto.
    intros e [He|[He|[]]]; subst e; simpl; auto.
Qed.

(** The ledger of an account that neither the source nor the destination
    identifier names is as before, and so is its row, cached balance
    included. *)
Theorem transfer_leaves_other_accounts (other : string) :
  Uuid.parse source <> Some other ->
  Uuid.parse dest <> Some other ->
  entriesFor other (db s') = entriesFor other (db s)
  /\ accountById other (db s') = accountById other (db s).
Proof.
  intros Hsource Hdest. subst s'.
  pose proof (transfer_outcome defaults source dest amount currency s) as Hout.
  destruct (transfer defaults source dest amount currency s) as [[err|tx] st]; simpl.
  - now rewrite Hout.
  - destruct Hout as (a & b & units & Ha & Hb & _ & _ & _ & _ & Hentries
                      & (newSource & newDest & Haccounts) & _).
    assert (Hs : (a =? other)%string = false)
      by (apply String.eqb_neq; congruence).
    assert (Hd : (b =? other)%string = false)
      by (apply String.eqb_neq; congruence).
    apply String.eqb_neq in Hs as Hs'. apply String.eqb_neq in Hd as Hd'.
    split.
    + unfold entriesFor. rewrite Hentries, filter_app. simpl.
      rewrite Hs, Hd. apply app_nil_r.
    + unfold accountById. rewrite Haccounts.
      rewrite !find_setBalance_other by congruence. reflexivity.
Qed.

End LedgerInvariants.

Lemma transfer_leaves_other_accounts_witness :
  let s' := snd (transfer Example.defaults Example.upperA Example.accountB
                   (Decimal.Finite 4000 2) "USD" Example.busy) in
  entriesFor Example.accountC (db s') = entriesFor Example.accountC (db Example.busy)
  /\ accountById Example.accountC (db s')
     = accountById Example.accountC (db Example.busy).
Proof.
  apply (transfer_leaves_other_accounts Example.defaults Example.upperA
           Example.accountB (Decimal.Finite 4000 2) "USD" Example.busy
           Example.accountC).
  - vm_compute. discriminate.
  - vm_compute. discriminate.
Defined.


Section MoreLedgerInvariants.

Variable defaults : Defaults.
Variables source dest : string.
Variable amount : Decimal.t.
Variable currency : string.
Variable s : Store.

Let s' := snd (transfer defaults source dest amount currency s).

(** A transfer never adds, removes or reorders an account, and never changes
    its identifier, owner, type, currency or status: only cached balances
    change. *)
Theorem transfer_keeps_account_identities :
  map identity (accounts (db s')) = map identity (accounts (db s)).
Proof.
  subst s'.
  pose proof (transfer_outcome defaults source dest amount currency s) as Hout.
  destruct (transfer defaults source dest amount currency s) as [[err|tx] st]; simpl.
  - now rewrite Hout.
  - destruct Hout as (idA & idB & units & _ & _ & _ & _ & _ & _ & _
                      & (newSource & newDest & Haccounts) & _).
    rewrite Haccounts, !map_map.
    apply map_ext. intros a. now rewrite !setBalance_identity.
Qed.

(** Double entry: over the whole ledger, credits minus debits is the same
    after a transfer as before, whatever the outcome and the amount
    recorded. *)
Theorem transfer_conserves_ledger_total :
  Spec.runningTotal 0 (ledgerEntries (db s'))
  = Spec.runningTotal 0 (ledgerEntries (db s)).
Proof.
  subst s'.
  pose proof (transfer_outcome defaults source dest amount currency s) as Hout.
  destruct (transfer defaults source dest amount currency s) as [[err|tx] st]; simpl.
  - now rewrite Hout.
  - destruct Hout as (a & b & units & _ & _ & _ & _ & _ & _ & Hentries & _).
    rewrite Hentries, runningTotal_app. simpl. lia.
Qed.

End MoreLedgerInvariants.

(** After a committed transfer the cached balance of the account the source
    identifier names, and of the one the destination identifier names, is
    the balance [getBalance] derives from its ledger, as long as that
    balance is below 2^52 units (45035996.27370496) in absolute value; it is
    the sum of the credits minus the sum of the debits when no running total
    of the account needs more than twenty digits. *)
Theorem committed_transfer_caches_derived_balance
    (defaults : Defaults) (source dest : string) (amount : Decimal.t)
    (currency : string) (s s' : Store) (tx : Transaction.t)
    (id : string) (row : Account.t) :
  transfer defaults source dest amount currency s = (inr tx, s') ->
  Uuid.parse source = Some id \/ Uuid.parse dest = Some id ->
  accountById id (db s') = Some row ->
  - 2 ^ 52 < derived id (db s') < 2 ^ 52 ->
  fst (getBalance id currency s') = inr (Account.balance row)
  /\ (withinPrecision 0 (entriesFor id (db s')) = true ->
      Account.balance row = Spec.balance id (db s')).
Proof.
  intros Hrun Hwhich Hrow Hrange.
  destruct (transfer_cached_balances defaults source dest amount currency s tx s' Hrun)
    as (a & b & newSource & newDest & Ha & Hb & Hsource & Hdest & Haccounts).
  assert (Hexact : Column.ofNumber (toNumber (derivedBalance id (db s')))
                   = Some (derived id (db s'))).
  { apply column_of_small_number; [|exact Hrange].
    unfold derivedBalance, Decimal.ofColumn, hasUnits. reflexivity. }
  assert (Hcached : Account.balance row = derived id (db s')).
  { unfold accountById in Hrow. rewrite Haccounts in Hrow.
    destruct (String.eqb_spec id b) as [Heq|Hneq].
    - subst id. rewrite Hexact in Hdest. injection Hdest as <-.
      rewrite find_setBalance in Hrow.
      destruct (find _ (map _ _)) as [r|] eqn:Hfind; [|discriminate].
      apply find_some in Hfind. destruct Hfind as [_ Hid].
      injection Hrow as <-. unfold setBalance. now rewrite Hid.
    - assert (id = a) by (destruct Hwhich; congruence). subst id.
      rewrite Hexact in Hsource. injection Hsource as <-.
      rewrite find_setBalance_other, find_setBalance in Hrow by exact Hneq.
      destruct (find _ (accounts (db s))) as [r|] eqn:Hfind; [|discriminate].
      apply find_some in Hfind. destruct Hfind as [_ Hid].
      injection Hrow as <-. unfold setBalance. now rewrite Hid. }
  assert (Hid : Uuid.parse id = Some id).
  { destruct Hwhich as [H|H]; exact (parse_idempotent _ _ H). }
  split.
  - rewrite (getBalance_run id currency id s' Hid). simpl. now rewrite Hcached.
  - intros Hwithin. rewrite Hcached, (derived_withinPrecision _ _ Hwithin).
    unfold Spec.balance. rewrite runningTotal_sums. lia.
Qed.

Lemma committed_transfer_caches_derived_balance_witness :
  let s' := snd (transfer Example.defaults Example.upperA Example.accountB
                   (Decimal.Finite 4000 2) "USD" Example.busy) in
  let row := Account.mk Example.accountA "userA" "checking" "USD" "active"
               3000000000 in
  fst (getBalance Example.accountA "USD" s') = inr (Account.balance row)
  /\ (withinPrecision 0 (entriesFor Example.accountA (db s')) = true ->
      Account.balance row = Spec.balance Example.accountA (db s')).
Proof.
  intros s' row.
  apply (committed_transfer_caches_derived_balance Example.defaults
           Example.upperA Example.accountB (Decimal.Finite 4000 2) "USD"
           Example.busy s'
           (transactionRow Example.defaults Example.accountA Example.accountB
              "USD" 4000000000)
           Example.accountA row).
  - vm_compute. reflexivity.
  - left. reflexivity.
  - vm_compute. reflexivity.
  - vm_compute. split; reflexivity.
Defined.


Section TransferAnswers.

Lemma toUpperCase_length (s : string) :
  String.length (toUpperCase s) = String.length s.
Proof. induction s as [|c s IH]; simpl; [reflexivity | now rewrite IH]. Qed.

End TransferAnswers.

(** [POST /transfers] has five answers: 201 with the transaction row, 400
    with a validation message, 422 "Account does not exist", 422
    "insufficient funds", and 500 "Internal error", which hides the message
    of whatever else was thrown. *)
Theorem postTransfers_answers
    (defaults : Defaults) (body : TransferBody) (s : Store) :
  let response := fst (postTransfers defaults body s) in
  (exists tx, response = mkResponse 201 (TransferPayload tx))
  \/ (exists message, response = mkResponse 400 (ErrorPayload message))
  \/ response = mkResponse 422 (ErrorPayload "Account does not exist")
  \/ response = mkResponse 422 (ErrorPayload "insufficient funds")
  \/ response = mkResponse 500 (ErrorPayload "Internal error").
Proof.
  unfold postTransfers, badRequest.
  destruct (falsy (sourceAccountId body) || falsy (destinationAccountId body)
            || match amount body with AmountUndefined => true | _ => false end
            || falsy (currency body)); [simpl; eauto|].
  destruct (strictEquals (sourceAccountId body) (destinationAccountId body));
    [simpl; eauto|].
  destruct (sourceAccountId body) as [source|],
    (destinationAccountId body) as [dest|], (amount body) as [| |requested],
    (currency body) as [cur|]; simpl; auto 6.
  destruct (Decimal.isNaN requested || Decimal.lessThanOrEqualTo requested Decimal.zero);
    [simpl; eauto|].
  destruct (negb (String.length cur =? 3)%nat); [simpl; eauto|].
  destruct (transfer defaults source dest requested (toUpperCase cur) s)
    as [[err|tx] s'] eqn:Hrun; simpl; [|eauto].
  destruct (transfer_throws _ _ _ _ _ _ _ _ Hrun) as [->|[->|[message ->]]];
    simpl; auto 6.
Qed.

(** A 400 answer of [POST /transfers] is given before anything is sent to the
    database: the store, its log included, is the one received. *)
Theorem validation_rejection_touches_nothing
    (defaults : Defaults) (body : TransferBody) (s : Store) :
  statusCode (fst (postTransfers defaults body s)) = 400%nat ->
  snd (postTransfers defaults body s) = s.
Proof.
  unfold postTransfers, badRequest.
  destruct (falsy (sourceAccountId body) || falsy (destinationAccountId body)
            || match amount body with AmountUndefined => true | _ => false end
            || falsy (currency body)); [reflexivity|].
  destruct (strictEquals (sourceAccountId body) (destinationAccountId body));
    [reflexivity|].
  destruct (sourceAccountId body) as [source|],
    (destinationAccountId body) as [dest|], (amount body) as [| |requested],
    (currency body) as [cur|]; simpl; try reflexivity.
  destruct (Decimal.isNaN requested || Decimal.lessThanOrEqualTo requested Decimal.zero);
    [reflexivity|].
  destruct (negb (String.length cur =? 3)%nat); [reflexivity|].
  destruct (transfer defaults source dest requested (toUpperCase cur) s)
    as [[err|tx] s'] eqn:Hrun; simpl; [|discriminate].
  destruct err; simpl; discriminate.
Qed.

Lemma validation_rejection_touches_nothing_witness :
  snd (postTransfers Example.defaults
         (Example.body Example.accountA Example.accountB (Decimal.Finite (-5) 0))
         Example.hundred)
  = Example.hundred.
Proof.
  apply (validation_rejection_touches_nothing Example.defaults
           (Example.body Example.accountA Example.accountB (Decimal.Finite (-5) 0))
           Example.hundred).
  reflexivity.
Defined.

(** A 201 answer of [POST /transfers] carries a row that is in the
    transaction table: a completed transfer whose source and destination are
    the accounts the two identifiers of the request name, which both exist,
    in the currency of the request in upper case.  The two identifiers
    differ as texts. *)
Theorem created_transfer_is_recorded
    (defaults : Defaults) (body : TransferBody) (s : Store) :
  statusCode (fst (postTransfers defaults body s)) = 201%nat ->
  exists source dest cur a b tx,
    sourceAccountId body = Some source
    /\ destinationAccountId body = Some dest
    /\ currency body = Some cur
    /\ source <> dest
    /\ Uuid.parse source = Some a
    /\ Uuid.parse dest = Some b
    /\ fst (postTransfers defaults body s) = mkResponse 201 (TransferPayload tx)
    /\ In tx (transactions (db (snd (postTransfers defaults body s))))
    /\ Transaction.type tx = "transfer"
    /\ Transaction.status tx = "completed"
    /\ Transaction.sourceAccountId tx = Some a
    /\ Transaction.destinationAccountId tx = Some b
    /\ accountExists a (db s) = true
    /\ accountExists b (db s) = true
    /\ Transaction.currency tx = toUpperCase cur.
Proof.
  intros Hstatus.
  destruct (postTransfers_created_inv _ _ _ Hstatus)
    as (source & dest & requested & cur & tx & s' & Hs & Hd & _ & Hc
        & Hdiff & _ & _ & Hlen & Hrun & Hanswer).
  pose proof (transfer_outcome defaults source dest requested (toUpperCase cur) s)
    as Hout.
  rewrite Hrun in Hout.
  destruct Hout as (a & b & units & Ha & Hb & _ & Htx & _ & Htxs & _ & _
                    & Hsource & Hdest & _).
  exists source, dest, cur, a, b, tx. rewrite Hanswer. simpl.
  rewrite Htxs. subst tx. simpl.
  repeat split; auto using accountById_exists.
  apply in_or_app. right. now left.
Qed.

Lemma created_transfer_is_recorded_witness :
  exists source dest cur a b tx,
    sourceAccountId
      (Example.body Example.upperA Example.accountB (Decimal.Finite 4000 2))
    = Some source
    /\ destinationAccountId
         (Example.body Example.upperA Example.accountB (Decimal.Finite 4000 2))
       = Some dest
    /\ currency
         (Example.body Example.upperA Example.accountB (Decimal.Finite 4000 2))
       = Some cur
    /\ source <> dest
    /\ Uuid.parse source = Some a
    /\ Uuid.parse dest = Some b
    /\ fst (postTransfers Example.defaults
              (Example.body Example.upperA Example.accountB (Decimal.Finite 4000 2))
              Example.hundred)
       = mkResponse 201 (TransferPayload tx)
    /\ In tx (transactions
                (db (snd (postTransfers Example.defaults
                            (Example.body Example.upperA Example.accountB
                               (Decimal.Finite 4000 2))
                            Example.hundred))))
    /\ Transaction.type tx = "transfer"
    /\ Transaction.status tx = "completed"
    /\ Transaction.sourceAccountId tx = Some a
    /\ Transaction.destinationAccountId tx = Some b
    /\ accountExists a (db Example.hundred) = true
    /\ accountExists b (db Example.hundred) = true
    /\ Transaction.currency tx = toUpperCase cur.
Proof.
  apply (created_transfer_is_recorded Example.defaults
           (Example.body Example.upperA Example.accountB (Decimal.Finite 4000 2))
           Example.hundred).
  vm_compute. reflexivity.
Defined.

(** An amount that is NaN, zero or negative (minus infinity included) is
    answered 400 whatever the other fields are, and nothing is sent to the
    database. *)
Theorem nonpositive_amount_rejected
    (defaults : Defaults) (body : TransferBody) (requested : Decimal.t) (s : Store) :
  amount body = AmountDecimal requested ->
  Decimal.isNaN requested || Decimal.lessThanOrEqualTo requested Decimal.zero = true ->
  exists message,
    postTransfers defaults body s = (mkResponse 400 (ErrorPayload message), s).
Proof.
  intros Hamount Hbad. unfold postTransfers, badRequest. rewrite Hamount.
  destruct (falsy (sourceAccountId body) || falsy (destinationAccountId body)
            || false || falsy (currency body)) eqn:Hfields; [eauto|].
  destruct (strictEquals (sourceAccountId body) (destinationAccountId body));
    [eauto|].
  destruct (sourceAccountId body) as [source|],
    (destinationAccountId body) as [dest|], (currency body) as [cur|];
    simpl in Hfields; try discriminate;
    try (rewrite ?orb_true_r in Hfields; discriminate).
  rewrite Hbad. eauto.
Qed.

Lemma nonpositive_amount_rejected_witness :
  exists message,
    postTransfers Example.defaults
      (Example.body Example.accountA Example.accountB Decimal.NegInfinity)
      Example.hundred
    = (mkResponse 400 (ErrorPayload message), Example.hundred).
Proof.
  apply (nonpositive_amount_rejected Example.defaults
           (Example.body Example.accountA Example.accountB Decimal.NegInfinity)
           Decimal.NegInfinity Example.hundred);
    reflexivity.
Defined.

Section InfiniteAmounts.

Local Opaque sort Uuid.cast Uuid.parse.

(** A transfer of [Infinity] never gets past the check of the balance. *)
Lemma transfer_infinite
    (defaults : Defaults) (source dest currency : string) (s : Store) :
  exists err sts,
    transfer defaults source dest Decimal.PosInfinity currency s
    = (inl err, mkStore (db s) (log s ++ sts))
    /\ filter isWrite sts = []
    /\ (errorStatus err = Some 422%nat \/ errorStatus err = None).
Proof.
  unfold transfer, prisma_transaction, queryRawUnsafe_forUpdate,
    account_findUnique, getBalance, ledgerEntry_findMany, uuidParam.
  run.
  destruct (Uuid.cast (nth 0 (sort [source; dest]) "")); simpl;
    [|do 2 eexists; split; [reflexivity | split; [reflexivity | auto]]].
  destruct (Uuid.cast (nth 1 (sort [source; dest]) "")); simpl;
    [|do 2 eexists; rewrite <- !app_assoc;
      split; [reflexivity | split; [reflexivity | auto]]].
  destruct (Uuid.parse source) as [a|]; simpl;
    [|do 2 eexists; rewrite <- !app_assoc;
      split; [reflexivity | split; [reflexivity | auto]]].
  destruct (Uuid.parse dest) as [b|]; simpl;
    [|do 2 eexists; rewrite <- !app_assoc;
      split; [reflexivity | split; [reflexivity | auto]]].
  destruct (accountById a (db s)), (accountById b (db s)); simpl;
    do 2 eexists; rewrite <- !app_assoc;
    (split; [reflexivity | split; [reflexivity | auto]]).
Qed.

End InfiniteAmounts.

(** The amount [Infinity] passes the validation of the route, which only
    refuses NaN and amounts that are not positive, but it is never
    transferred: whatever the other fields, the answer is 400, 422 or 500,
    no statement that writes a row is sent and the tables are as before. *)
Theorem infinite_amount_never_transferred
    (defaults : Defaults) (source dest cur : option string) (s : Store) :
  let outcome := postTransfers defaults
                   (mkTransferBody source dest (AmountDecimal Decimal.PosInfinity) cur)
                   s in
  (statusCode (fst outcome) = 400%nat \/ statusCode (fst outcome) = 422%nat
   \/ statusCode (fst outcome) = 500%nat)
  /\ filter isWrite (issued s (snd outcome)) = []
  /\ db (snd outcome) = db s.
Proof.
  intros outcome. subst outcome. unfold postTransfers, badRequest.
  cbn [sourceAccountId destinationAccountId amount currency].
  destruct (falsy source || falsy dest || false || falsy cur) eqn:Hfields;
    [simpl; rewrite issued_nothing; auto|].
  destruct source as [source|], dest as [dest|], cur as [cur|];
    simpl in Hfields; rewrite ?orb_true_r in Hfields; try discriminate.
  destruct (strictEquals (Some source) (Some dest));
    [simpl; rewrite issued_nothing; auto|].
  cbn [Decimal.isNaN Decimal.lessThanOrEqualTo Decimal.cmp Decimal.zero orb].
  destruct (negb (String.length cur =? 3)%nat);
    [simpl; rewrite issued_nothing; auto|].
  destruct (transfer_infinite defaults source dest (toUpperCase cur) s)
    as (err & sts & -> & Hreads & Hstatus).
  simpl. rewrite issued_app. unfold errorHandler.
  destruct Hstatus as [->| ->]; simpl; auto.
Qed.

Section LedgerListing.

Lemma In_firstn {A} (x : A) (n : nat) (l : list A) : In x (firstn n l) -> In x l.
Proof.
  revert l. induction n as [|n IH]; intros [|y l]; simpl; try tauto.
  intros [H|H]; auto.
Qed.

Lemma In_skipn {A} (x : A) (n : nat) (l : list A) : In x (skipn n l) -> In x l.
Proof.
  revert l. induction n as [|n IH]; intros [|y l]; simpl; auto.
Qed.

Lemma In_page {A} (x : A) (take skip : Z) (rows : list A) :
  In x (page take skip rows) -> In x rows.
Proof.
  unfold page. destruct (0 <=? take); intros H.
  - eauto using In_firstn, In_skipn.
  - apply in_rev in H. apply In_firstn, In_skipn in H. now apply in_rev.
Qed.

Lemma In_insertDesc (x e : LedgerEntry.t) (l : list LedgerEntry.t) :
  In x (insertDesc e l) <-> x = e \/ In x l.
Proof.
  induction l as [|y l IH]; simpl.
  - intuition.
  - destruct (LedgerEntry.createdAt y <? LedgerEntry.createdAt e); simpl;
      intuition.
Qed.

Lemma In_insertions (x : LedgerEntry.t) (l acc : list LedgerEntry.t) :
  In x (fold_left (fun acc e => insertDesc e acc) l acc) <-> In x l \/ In x acc.
Proof.
  revert acc. induction l as [|e l IH]; intros acc; simpl.
  - intuition.
  - rewrite IH, In_insertDesc. intuition.
Qed.

Lemma In_listing (x : LedgerEntry.t) (accountId : string) (d : Db) :
  In x (listing accountId d)
  <-> In x (ledgerEntries d) /\ LedgerEntry.accountId x = accountId.
Proof.
  unfold listing, orderByCreatedAtDesc, entriesFor.
  rewrite In_insertions, filter_In, String.eqb_eq. simpl. intuition.
Qed.

Lemma insertDesc_newestFirst (e : LedgerEntry.t) (l : list LedgerEntry.t) :
  newestFirst l -> newestFirst (insertDesc e l).
Proof.
  induction l as [|y l IH]; simpl.
  - intros _. split; [intros z []|exact I].
  - intros [Hy Hl].
    destruct (Z.ltb_spec (LedgerEntry.createdAt y) (LedgerEntry.createdAt e)); simpl.
    + split; [|split; assumption].
      intros z [<-|Hz]; [lia|]. specialize (Hy z Hz). lia.
    + split; [|now apply IH].
      intros z Hz. apply In_insertDesc in Hz. destruct Hz as [->|Hz]; auto.
Qed.

Lemma listing_newestFirst (accountId : string) (d : Db) :
  newestFirst (listing accountId d).
Proof.
  unfold listing, orderByCreatedAtDesc.
  assert (Hgen : forall l acc, newestFirst acc ->
            newestFirst (fold_left (fun acc e => insertDesc e acc) l acc)).
  { induction l as [|e l IH]; intros acc Hacc; simpl; [exact Hacc|].
    apply IH. now apply insertDesc_newestFirst. }
  apply Hgen. exact I.
Qed.

Lemma firstn_newestFirst (n : nat) (l : list LedgerEntry.t) :
  newestFirst l -> newestFirst (firstn n l).
Proof.
  revert l. induction n as [|n IH]; intros [|x l]; simpl; auto.
  intros [Hx Hl]. split; [|now apply IH].
  intros y Hy. apply Hx. now apply In_firstn in Hy.
Qed.

Lemma skipn_newestFirst (n : nat) (l : list LedgerEntry.t) :
  newestFirst l -> newestFirst (skipn n l).
Proof.
  revert l. induction n as [|n IH]; intros [|x l]; simpl; auto.
  intros [_ Hl]. now apply IH.
Qed.

Lemma firstn_add {A} (a b : nat) (l : list A) :
  firstn (a + b) l = firstn a l ++ firstn b (skipn a l).
Proof.
  revert l. induction a as [|a IH]; intros [|x l]; simpl; auto.
  - now rewrite firstn_nil.
  - now rewrite IH.
Qed.

Lemma orElse_offset (offset : Z) : orElse (Some offset) 0 = offset.
Proof. now destruct offset. Qed.

Lemma orElse_limit (limit : Z) : 0 < limit -> orElse (Some limit) 100 = limit.
Proof. destruct limit; simpl; intros H; try reflexivity; discriminate. Qed.

End LedgerListing.

Section LedgerReads.

Local Opaque page orderByCreatedAtDesc entriesFor Z.min fitsInt Uuid.parse.

(** What the ledger route does, case by case. *)
Lemma getLedger_cases (id : string) (limit offset : option Z) (s : Store) :
  let take := Z.min (orElse limit 100) 1000 in
  let skip := orElse offset 0 in
  getLedger id limit offset s
  = match Uuid.parse id with
    | None => (mkResponse 500 (ErrorPayload "Internal error"), s)
    | Some u =>
        if fitsInt take && fitsInt skip && (0 <=? skip)
        then
          let entries := page take skip (listing u (db s)) in
          let totalCount := Z.of_nat (List.length (entriesFor u (db s))) in
          (mkResponse 200
             (LedgerPayload entries totalCount take skip
                (skip + Z.of_nat (List.length entries) <? totalCount)),
           mkStore (db s)
             (log s ++ [LedgerEntryCount id; LedgerEntryFindMany id]))
        else
          (mkResponse 500 (ErrorPayload "Internal error"),
           mkStore (db s) (log s ++ [LedgerEntryCount id]))
    end.
Proof.
  cbv zeta.
  unfold getLedger, ledgerEntry_count, ledgerEntry_findManyPaged, uuidParam, listing.
  destruct (Uuid.parse id) as [u|]; [|reflexivity]. run.
  destruct (fitsInt (Z.min (orElse limit 100) 1000) && fitsInt (orElse offset 0));
    simpl; [|reflexivity].
  rewrite Z.leb_antisym.
  destruct (orElse offset 0 <? 0); simpl; [reflexivity|].
  now rewrite <- app_assoc.
Qed.

Lemma getLedger_db (id : string) (limit offset : option Z) (s : Store) :
  db (snd (getLedger id limit offset s)) = db s.
Proof.
  rewrite getLedger_cases. cbv zeta.
  destruct (Uuid.parse id); [|reflexivity].
  now destruct (fitsInt _ && fitsInt _ && _).
Qed.

Lemma getLedger_same_tables (id : string) (limit offset : option Z) (s1 s2 : Store) :
  db s1 = db s2 ->
  fst (getLedger id limit offset s1) = fst (getLedger id limit offset s2).
Proof.
  intros Heq. rewrite !getLedger_cases. cbv zeta.
  destruct (Uuid.parse id); [|reflexivity].
  destruct (fitsInt _ && fitsInt _ && _); [|reflexivity].
  simpl. now rewrite Heq.
Qed.

(** The page of an answer is a page of the listing of an account, or empty. *)
Lemma getLedger_page (id : string) (limit offset : option Z) (s : Store) :
  pageOf (fst (getLedger id limit offset s)) = []
  \/ exists u,
       0 <= orElse offset 0
       /\ pageOf (fst (getLedger id limit offset s))
          = page (Z.min (orElse limit 100) 1000) (orElse offset 0)
              (listing u (db s)).
Proof.
  rewrite getLedger_cases. cbv zeta.
  destruct (Uuid.parse id) as [u|]; [|now left].
  destruct (fitsInt _ && fitsInt _ && _) eqn:Hfits; [|now left].
  right. exists u. apply andb_prop in Hfits. destruct Hfits as [_ Hskip].
  apply Z.leb_le in Hskip. split; [exact Hskip | reflexivity].
Qed.

End LedgerReads.

(** [GET /accounts/:id/ledger] only reads: whatever the parameters and the
    answer, the tables are as before and nothing that is sent writes a row.
    An answer of 200 comes after the count and then the listing; any other
    answer is 500, and then the client has refused the identifier before
    anything was sent, or the parameters of the listing after the count. *)
Theorem getLedger_only_reads
    (id : string) (limit offset : option Z) (s : Store) :
  let answer := getLedger id limit offset s in
  db (snd answer) = db s
  /\ filter isWrite (issued s (snd answer)) = []
  /\ ((statusCode (fst answer) = 200%nat
       /\ issued s (snd answer) = [LedgerEntryCount id; LedgerEntryFindMany id])
      \/ (statusCode (fst answer) = 500%nat
          /\ (issued s (snd answer) = []
              \/ issued s (snd answer) = [LedgerEntryCount id]))).
Proof.
  cbv zeta. split; [apply getLedger_db|].
  rewrite getLedger_cases. cbv zeta.
  destruct (Uuid.parse id) as [u|].
  - destruct (fitsInt _ && fitsInt _ && _); simpl; rewrite issued_app; auto.
  - simpl. rewrite issued_nothing. auto.
Qed.

(** The ledger route is repeatable: with no transfer in between, the same
    call gives the same answer (the entries of the account the identifier
    names having distinct creation times, the order of the listing is the
    only one possible). *)
Theorem getLedger_is_repeatable
    (id : string) (limit offset : option Z) (s : Store) :
  (forall u, Uuid.parse id = Some u -> distinctTimes u (db s)) ->
  fst (getLedger id limit offset (snd (getLedger id limit offset s)))
  = fst (getLedger id limit offset s).
Proof.
  intros _. apply getLedger_same_tables, getLedger_db.
Qed.

Lemma getLedger_is_repeatable_witness :
  fst (getLedger Example.accountC (Some 2) (Some 1)
         (snd (getLedger Example.accountC (Some 2) (Some 1) Example.busy)))
  = fst (getLedger Example.accountC (Some 2) (Some 1) Example.busy).
Proof.
  apply (getLedger_is_repeatable Example.accountC (Some 2) (Some 1) Example.busy).
  intros u Hu. vm_compute in Hu. injection Hu as <-.
  unfold distinctTimes. vm_compute.
  repeat (constructor; [simpl; intuition discriminate|]). constructor.
Defined.

(** For an identifier that spells a UUID, a limit and an offset that are
    32-bit integers and an offset that is not negative, the ledger
    route answers 200 with the number of entries of the account as total,
    and every entry it lists is an entry of the ledger that belongs to the
    account the identifier names. *)
Theorem getLedger_lists_the_account
    (id u : string) (limit offset : option Z) (s : Store) :
  spells id u ->
  0 <= orElse offset 0 < 2 ^ 31 ->
  - 2 ^ 31 <= orElse limit 100 < 2 ^ 31 ->
  exists entries limitNum hasMore,
    fst (getLedger id limit offset s)
    = mkResponse 200
        (LedgerPayload entries
           (Z.of_nat (List.length (entriesFor u (db s))))
           limitNum (orElse offset 0) hasMore)
    /\ forall e, In e entries ->
         In e (ledgerEntries (db s)) /\ LedgerEntry.accountId e = u.
Proof.
  intros Hid Hoffset Hlimit. apply spells_parse in Hid.
  rewrite (getLedger_run id u limit offset s Hid) by lia. cbn [fst].
  do 3 eexists. split; [reflexivity|].
  intros e He. apply In_page in He. now apply In_listing in He.
Qed.

Lemma getLedger_lists_the_account_witness :
  exists entries limitNum hasMore,
    fst (getLedger Example.upperA (Some 10) (Some 0) Example.busy)
    = mkResponse 200
        (LedgerPayload entries
           (Z.of_nat (List.length (entriesFor Example.accountA (db Example.busy))))
           limitNum (orElse (Some 0) 0) hasMore)
    /\ forall e, In e entries ->
         In e (ledgerEntries (db Example.busy))
         /\ LedgerEntry.accountId e = Example.accountA.
Proof.
  apply (getLedger_lists_the_account Example.upperA Example.accountA (Some 10)
           (Some 0) Example.busy).
  - reflexivity.
  - simpl. lia.
  - simpl. lia.
Defined.

(** With a limit and an offset that are not negative, the page has at most
    [limit] entries, never more than 1000, and at most 100 when the limit is
    absent, unparsable or 0; its entries are newest first. *)
Theorem getLedger_page_is_bounded_and_ordered
    (id : string) (limit offset : option Z) (s : Store) :
  0 <= orElse offset 0 ->
  0 <= orElse limit 100 ->
  let entries := pageOf (fst (getLedger id limit offset s)) in
  Z.of_nat (List.length entries) <= orElse limit 100
  /\ Z.of_nat (List.length entries) <= 1000
  /\ newestFirst entries.
Proof.
  intros Hoffset Hlimit entries. subst entries.
  destruct (getLedger_page id limit offset s) as [->|(u & _ & ->)].
  - simpl. repeat split; lia.
  - unfold page.
    replace (0 <=? Z.min (orElse limit 100) 1000) with true
      by (symmetry; apply Z.leb_le; lia).
    pose proof (firstn_le_length (Z.to_nat (Z.min (orElse limit 100) 1000))
                  (skipn (Z.to_nat (orElse offset 0)) (listing u (db s)))) as Hlen.
    repeat split; try lia.
    apply firstn_newestFirst, skipn_newestFirst, listing_newestFirst.
Qed.

Lemma getLedger_page_is_bounded_and_ordered_witness :
  let entries := pageOf (fst (getLedger Example.accountC (Some 2) None Example.busy)) in
  Z.of_nat (List.length entries) <= orElse (Some 2) 100
  /\ Z.of_nat (List.length entries) <= 1000
  /\ newestFirst entries.
Proof.
  apply (getLedger_page_is_bounded_and_ordered Example.accountC (Some 2) None
           Example.busy); simpl; lia.
Defined.

(** Paging loses and repeats nothing: for an identifier that spells a UUID
    and a limit between 1 and 1000, the page at an offset followed by
    the page at that offset plus the limit is the stretch of twice the limit
    that starts at the offset in the listing of the account (the entries of
    the account having distinct creation times). *)
Theorem getLedger_pages_are_consecutive
    (id u : string) (limit offset : Z) (s : Store) :
  spells id u ->
  distinctTimes u (db s) ->
  0 < limit <= 1000 ->
  0 <= offset < 2 ^ 31 ->
  pageOf (fst (getLedger id (Some limit) (Some offset) s))
  ++ pageOf (fst (getLedger id (Some limit) (Some (offset + limit)) s))
  = firstn (Z.to_nat (2 * limit)) (skipn (Z.to_nat offset) (listing u (db s))).
Proof.
  intros Hid _ Hlimit Hoffset. apply spells_parse in Hid.
  rewrite !(getLedger_run id u) by
    (try exact Hid; rewrite ?orElse_offset, ?orElse_limit by lia; lia).
  cbn [fst pageOf payload]. rewrite !orElse_offset, orElse_limit by lia.
  rewrite Z.min_l by lia. unfold page.
  replace (0 <=? limit) with true by (symmetry; apply Z.leb_le; lia).
  fold (listing u (db s)).
  replace (Z.to_nat (2 * limit)) with (Z.to_nat limit + Z.to_nat limit)%nat by lia.
  rewrite firstn_add, skipn_skipn.
  do 3 f_equal. lia.
Qed.

Lemma getLedger_pages_are_consecutive_witness :
  pageOf (fst (getLedger Example.accountC (Some 1) (Some 0) Example.busy))
  ++ pageOf (fst (getLedger Example.accountC (Some 1) (Some (0 + 1)) Example.busy))
  = firstn (Z.to_nat (2 * 1))
      (skipn (Z.to_nat 0) (listing Example.accountC (db Example.busy))).
Proof.
  apply (getLedger_pages_are_consecutive Example.accountC Example.accountC 1 0
           Example.busy); try lia.
  - reflexivity.
  - unfold distinctTimes. vm_compute.
    repeat (constructor; [simpl; intuition discriminate|]). constructor.
Defined.


Section AccountDetails.

Lemma accountById_unknown (id : string) (d : Db) :
  accountExists id d = false -> accountById id d = None.
Proof.
  unfold accountExists, accountById.
  induction (accounts d) as [|a l IH]; simpl; [reflexivity|].
  destruct (Account.id a =? id)%string; simpl; [discriminate | exact IH].
Qed.

Lemma accountById_id (id : string) (d : Db) (row : Account.t) :
  accountById id d = Some row -> Account.id row = id.
Proof.
  unfold accountById. intros H. apply find_some in H.
  now apply String.eqb_eq.
Qed.

Lemma accountExists_identities (id : string) (d d' : Db) :
  map identity (accounts d') = map identity (accounts d) ->
  accountExists id d = true -> accountById id d' <> None.
Proof.
  unfold accountExists, accountById.
  generalize (accounts d'). induction (accounts d) as [|a l IH];
    intros [|a' l'] Hmap; simpl in *; try discriminate.
  injection Hmap as Hhead Htail.
  assert (Hid : Account.id a' = Account.id a)
    by (unfold identity in Hhead; congruence).
  rewrite Hid. destruct (Account.id a =? id)%string; simpl; [discriminate|].
  now apply IH.
Qed.

(** The answer for an account that is found. *)
Lemma getAccount_found (id u : string) (s : Store) (row : Account.t) :
  Uuid.parse id = Some u ->
  accountById u (db s) = Some row ->
  getAccount id s
  = (AccountJson 200
       (AccountView.mk u (Account.userId row) (Account.accountType row)
          (Account.currency row) (Account.status row)
          (Fixed.toFixed8 (derived u (db s)))),
     mkStore (db s) (log s ++ [AccountFindUnique id; LedgerEntryFindMany u])).
Proof.
  intros Hid Hrow. pose proof (accountById_id u (db s) row Hrow) as Hu.
  pose proof (parse_idempotent id u Hid) as Hsame.
  unfold getAccount, account_findUnique, uuidParam. rewrite Hid.
  unfold bind, record, getDb, ret. cbn [db log fst snd].
  rewrite Hrow, Hu.
  rewrite (getBalance_run u (Account.currency row) u _ Hsame). cbn [db log].
  now rewrite <- app_assoc.
Qed.

End AccountDetails.

(** [GET /accounts/:id] for an identifier that spells a UUID that no
    account carries answers 404 "Account not found" after the lookup
    alone: the ledger is not read and the tables are as before. *)
Theorem getAccount_unknown_is_not_found (id u : string) (s : Store) :
  spells id u ->
  accountExists u (db s) = false ->
  getAccount id s
  = (AccountError 404 "Account not found",
     mkStore (db s) (log s ++ [AccountFindUnique id])).
Proof.
  intros Hid Hunknown. apply spells_parse in Hid.
  unfold getAccount, account_findUnique, uuidParam.
  rewrite Hid.
  unfold bind, record, getDb, ret. cbn [db log fst snd].
  now rewrite (accountById_unknown u (db s) Hunknown).
Qed.

Lemma getAccount_unknown_is_not_found_witness :
  getAccount Example.unknown Example.hundred
  = (AccountError 404 "Account not found",
     mkStore (db Example.hundred)
       (log Example.hundred ++ [AccountFindUnique Example.unknown])).
Proof.
  apply (getAccount_unknown_is_not_found Example.unknown Example.unknown
           Example.hundred); reflexivity.
Defined.

(** [GET /accounts/:id] for an identifier that spells the UUID of an account
    answers 200
    with the fields of its row and, as balance, the balance [getBalance]
    derives from its ledger entries written with eight decimals, which is
    the sum of the credits minus the sum of the debits when no running total
    needs more than twenty digits; the cached balance of the row is not
    used, and the tables are as before. *)
Theorem getAccount_reports_derived_balance
    (id u : string) (s : Store) (row : Account.t) :
  spells id u ->
  accountById u (db s) = Some row ->
  fst (getAccount id s)
  = AccountJson 200
      (AccountView.mk u (Account.userId row) (Account.accountType row)
         (Account.currency row) (Account.status row)
         (Fixed.toFixed8 (derived u (db s))))
  /\ fst (getBalance id (Account.currency row) s) = inr (derived u (db s))
  /\ (withinPrecision 0 (entriesFor u (db s)) = true ->
      derived u (db s) = Spec.balance u (db s))
  /\ db (snd (getAccount id s)) = db s.
Proof.
  intros Hid Hrow. apply spells_parse in Hid.
  rewrite (getAccount_found id u s row Hid Hrow).
  cbn [fst snd db].
  split; [reflexivity|]. split; [now rewrite (getBalance_run id _ u s Hid)|].
  split; [|reflexivity].
  intros Hwithin. rewrite (derived_withinPrecision _ _ Hwithin).
  unfold Spec.balance. rewrite runningTotal_sums. lia.
Qed.

Lemma getAccount_reports_derived_balance_witness :
  let row := Account.mk Example.accountA "userA" "checking" "USD" "active"
               7000000000 in
  fst (getAccount Example.upperA Example.busy)
  = AccountJson 200
      (AccountView.mk Example.accountA "userA" "checking" "USD" "active"
         (Fixed.toFixed8 (derived Example.accountA (db Example.busy))))
  /\ fst (getBalance Example.upperA (Account.currency row) Example.busy)
     = inr (derived Example.accountA (db Example.busy))
  /\ (withinPrecision 0 (entriesFor Example.accountA (db Example.busy)) = true ->
      derived Example.accountA (db Example.busy)
      = Spec.balance Example.accountA (db Example.busy))
  /\ db (snd (getAccount Example.upperA Example.busy)) = db Example.busy.
Proof.
  intros row.
  apply (getAccount_reports_derived_balance Example.upperA Example.accountA
           Example.busy row); reflexivity.
Defined.

(** After a [POST /transfers] answered 201 between two accounts, for an
    amount of at most eight decimals below 2^52 units, [GET /accounts/:id]
    shows the balance of the source lowered and the balance of the
    destination raised by exactly the requested amount (no running total of
    either account needing more than twenty digits). *)
Theorem balances_shown_after_transfer
    (defaults : Defaults) (source dest cur : string) (requested : Decimal.t)
    (units : Z) (s : Store) (a b : string) :
  let s' := snd (postTransfers defaults
                   (mkTransferBody (Some source) (Some dest)
                      (AmountDecimal requested) (Some cur)) s) in
  statusCode (fst (postTransfers defaults
                     (mkTransferBody (Some source) (Some dest)
                        (AmountDecimal requested) (Some cur)) s)) = 201%nat ->
  Uuid.parse source = Some a ->
  Uuid.parse dest = Some b ->
  a <> b ->
  withinPrecision 0 (entriesFor a (db s')) = true ->
  withinPrecision 0 (entriesFor b (db s')) = true ->
  hasUnits requested units ->
  units < 2 ^ 52 ->
  exists sourceView destView,
    fst (getAccount source s') = AccountJson 200 sourceView
    /\ AccountView.balance sourceView
       = Fixed.toFixed8 (Spec.balance a (db s) - units)
    /\ fst (getAccount dest s') = AccountJson 200 destView
    /\ AccountView.balance destView
       = Fixed.toFixed8 (Spec.balance b (db s) + units).
Proof.
  intros s' Hstatus Hsource Hdest Hdiff HwithinA HwithinB Hvalue Hbound.
  destruct (postTransfers_created_inv _ _ _ Hstatus)
    as (source' & dest' & requested' & cur' & tx & st & Hs & Hd & Ha & Hc
        & _ & _ & Hle & _ & Hrun & Hanswer).
  simpl in Hs, Hd, Ha, Hc.
  injection Hs as <-. injection Hd as <-. injection Ha as <-. injection Hc as <-.
  assert (Hst : s' = st) by (subst s'; now rewrite Hanswer).
  assert (Hunits : 0 < units).
  { destruct requested as [digits places| | |]; cbn [hasUnits] in Hvalue;
      try contradiction.
    unfold Decimal.lessThanOrEqualTo, Decimal.zero, Decimal.cmp in Hle.
    pose proof (pow10_pos places) as Hp.
    change (Decimal.pow10 0) with 1 in Hle. rewrite Z.mul_1_r in Hle.
    destruct (Z.compare_spec digits (0 * Decimal.pow10 places)); try discriminate.
    change (10 ^ 8) with 100000000 in *. nia. }
  assert (Hamount : Transaction.amount tx = units).
  { apply (transfer_records_exactly defaults source dest requested
             (toUpperCase cur) s st tx units Hrun Hvalue).
    change (2 ^ 52) with 4503599627370496 in *. lia. }
  destruct (committed_balances defaults source dest requested (toUpperCase cur)
              s st tx Hrun) as (a' & b' & Ha' & Hb' & _ & _ & Hmoved & _).
  rewrite Hsource in Ha'. injection Ha' as <-.
  rewrite Hdest in Hb'. injection Hb' as <-.
  destruct (Hmoved Hdiff) as [HtotalA HtotalB].
  rewrite Hamount in HtotalA, HtotalB. rewrite <- Hst in HtotalA, HtotalB.
  pose proof (transfer_outcome defaults source dest requested (toUpperCase cur) s)
    as Hout.
  rewrite Hrun in Hout.
  destruct (Hout) as (a' & b' & recorded & Ha' & Hb' & _ & _ & _ & _ & _
                      & (ns & nd & Haccounts) & Hsrc & Hdst & _).
  rewrite Hsource in Ha'. injection Ha' as <-.
  rewrite Hdest in Hb'. injection Hb' as <-.
  assert (Hids : map identity (accounts (db s')) = map identity (accounts (db s))).
  { rewrite Hst, Haccounts, !map_map. apply map_ext. intros row.
    now rewrite !setBalance_identity. }
  destruct (accountById a (db s')) as [rowS|] eqn:HrowS;
    [|exfalso; revert HrowS;
      apply (accountExists_identities a (db s) (db s') Hids);
      now apply accountById_exists].
  destruct (accountById b (db s')) as [rowD|] eqn:HrowD;
    [|exfalso; revert HrowD;
      apply (accountExists_identities b (db s) (db s') Hids);
      now apply accountById_exists].
  rewrite (getAccount_found source a s' rowS Hsource HrowS),
    (getAccount_found dest b s' rowD Hdest HrowD).
  do 2 eexists. cbn [fst AccountView.balance].
  rewrite (derived_withinPrecision a (db s') HwithinA),
    (derived_withinPrecision b (db s') HwithinB), HtotalA, HtotalB.
  unfold Spec.balance. rewrite !runningTotal_sums.
  split; [reflexivity|]. cbn [AccountView.balance].
  split; [f_equal; lia|]. split; [reflexivity|].
  cbn [AccountView.balance]. f_equal; lia.
Qed.

Lemma balances_shown_after_transfer_witness :
  let s' := snd (postTransfers Example.defaults
                   (mkTransferBody (Some Example.upperA) (Some Example.accountB)
                      (AmountDecimal (Decimal.Finite 4000 2)) (Some "usd"))
                   Example.busy) in
  exists sourceView destView,
    fst (getAccount Example.upperA s') = AccountJson 200 sourceView
    /\ AccountView.balance sourceView
       = Fixed.toFixed8 (Spec.balance Example.accountA (db Example.busy) - 4000000000)
    /\ fst (getAccount Example.accountB s') = AccountJson 200 destView
    /\ AccountView.balance destView
       = Fixed.toFixed8 (Spec.balance Example.accountB (db Example.busy) + 4000000000).
Proof.
  apply (balances_shown_after_transfer Example.defaults
           Example.upperA Example.accountB "usd" (Decimal.Finite 4000 2)
           4000000000 Example.busy Example.accountA Example.accountB).
  - vm_compute. reflexivity.
  - reflexivity.
  - reflexivity.
  - vm_compute. discriminate.
  - vm_compute. reflexivity.
  - vm_compute. reflexivity.
  - reflexivity.
  - vm_compute. reflexivity.
Defined.

Section FixedNotation.

Lemma digit_spec (n : Z) :
  (Fixed.digit n =? ".")%char = false
  /\ (Fixed.digit n =? "-")%char = false
  /\ Z.of_nat (nat_of_ascii (Fixed.digit n)) - 48 = n mod 10.
Proof.
  unfold Fixed.digit.
  pose proof (Z.mod_pos_bound n 10 ltac:(lia)) as Hr.
  assert (Hcases : n mod 10 = 0 \/ n mod 10 = 1 \/ n mod 10 = 2 \/ n mod 10 = 3
                   \/ n mod 10 = 4 \/ n mod 10 = 5 \/ n mod 10 = 6
                   \/ n mod 10 = 7 \/ n mod 10 = 8 \/ n mod 10 = 9) by lia.
  repeat (destruct Hcases as [->|Hcases]; [repeat split; reflexivity|]).
  rewrite Hcases. repeat split; reflexivity.
Qed.

Lemma readDigits_digit (acc n : Z) (rest : string) :
  Fixed.readDigits acc (String (Fixed.digit n) rest)
  = Fixed.readDigits (acc * 10 + n mod 10) rest.
Proof.
  destruct (digit_spec n) as (Hpoint & _ & Hvalue).
  cbn [Fixed.readDigits]. now rewrite Hpoint, Hvalue.
Qed.

Lemma readDigits_lowDigits (count : nat) (n acc : Z) (rest : string) :
  Fixed.readDigits acc (Fixed.lowDigits count n rest)
  = Fixed.readDigits (acc * 10 ^ Z.of_nat count + n mod 10 ^ Z.of_nat count) rest.
Proof.
  revert n rest. induction count as [|count IH]; intros n rest.
  - simpl. rewrite Z.mod_1_r. f_equal. lia.
  - cbn [Fixed.lowDigits]. rewrite IH, readDigits_digit. f_equal.
    rewrite Nat2Z.inj_succ, Z.pow_succ_r by lia.
    rewrite (Z.rem_mul_r n 10 (10 ^ Z.of_nat count)) by
      (try lia; apply Z.pow_pos_nonneg; lia).
    ring.
Qed.

Lemma readDigits_digits (fuel : nat) (n : Z) (rest : string) :
  0 <= n < 10 ^ Z.of_nat (S fuel) ->
  Fixed.readDigits 0 (Fixed.digits fuel n rest) = Fixed.readDigits n rest.
Proof.
  revert n rest. induction fuel as [|fuel IH]; intros n rest Hn.
  - cbn [Fixed.digits]. rewrite readDigits_digit. f_equal.
    change (10 ^ Z.of_nat 1) with 10 in Hn. rewrite Z.mod_small; lia.
  - cbn [Fixed.digits]. destruct (Z.ltb_spec n 10).
    + rewrite readDigits_digit. f_equal. rewrite Z.mod_small; lia.
    + rewrite IH.
      * rewrite readDigits_digit. f_equal.
        pose proof (Z.div_mod n 10 ltac:(lia)). lia.
      * rewrite Nat2Z.inj_succ, Z.pow_succ_r in Hn by lia.
        split; [apply Z.div_pos; lia|].
        apply Z.div_lt_upper_bound; lia.
Qed.

Lemma digits_head (fuel : nat) (n : Z) (rest : string) :
  exists m tail, Fixed.digits fuel n rest = String (Fixed.digit m) tail.
Proof.
  revert n rest. induction fuel as [|fuel IH]; intros n rest; cbn [Fixed.digits].
  - eauto.
  - destruct (n <? 10); eauto.
Qed.

Lemma fuel_suffices (n : Z) :
  0 <= n -> n / 10 ^ 8 < 10 ^ Z.of_nat (S (Z.to_nat (Z.log2 n))).
Proof.
  intros Hn.
  assert (Hdiv : n / 10 ^ 8 <= n).
  { apply Z.div_le_upper_bound; [now vm_compute|].
    change (10 ^ 8) with 100000000. lia. }
  destruct (Z.eq_dec n 0) as [->|Hpos]; [now vm_compute|].
  pose proof (Z.log2_spec n ltac:(lia)) as [_ Hlog].
  pose proof (Z.log2_nonneg n) as Hnonneg.
  rewrite Nat2Z.inj_succ, Z2Nat.id by exact Hnonneg.
  assert (2 ^ Z.succ (Z.log2 n) <= 10 ^ Z.succ (Z.log2 n))
    by (apply Z.pow_le_mono_l; lia).
  lia.
Qed.

End FixedNotation.

(** [toFixed(8)] loses nothing: the text of a balance, read back as a number
    of units of 10^-8, is the balance, so equal texts mean equal balances. *)
Theorem toFixed8_is_exact (units : Z) :
  Fixed.units (Fixed.toFixed8 units) = units
  /\ forall other, Fixed.toFixed8 other = Fixed.toFixed8 units -> other = units.
Proof.
  assert (Hread : forall u, Fixed.units (Fixed.toFixed8 u) = u).
  { intros u. unfold Fixed.toFixed8. cbv zeta.
    set (n := Z.abs u).
    assert (Hn : 0 <= n) by (unfold n; lia).
    assert (Hunsigned :
              Fixed.readDigits 0
                (Fixed.digits (Z.to_nat (Z.log2 n)) (n / 10 ^ 8)
                   (String "." (Fixed.lowDigits 8 (n mod 10 ^ 8) "")))
              = n).
    { assert (H8 : 0 < 10 ^ 8) by reflexivity.
      rewrite readDigits_digits.
      2:{ split; [apply Z.div_pos; lia | apply fuel_suffices; exact Hn]. }
      cbn [Fixed.readDigits]. change ("." =? ".")%char with true. cbv iota.
      rewrite readDigits_lowDigits. cbn [Fixed.readDigits].
      change (10 ^ Z.of_nat 8) with (10 ^ 8).
      rewrite Z.mod_mod by lia.
      pose proof (Z.div_mod n (10 ^ 8) ltac:(lia)) as Hdm.
      set (q := n / 10 ^ 8) in *. set (r := n mod 10 ^ 8) in *.
      set (p := 10 ^ 8) in *. clearbody q r p. rewrite Hdm. ring. }
    destruct (Z.ltb_spec u 0).
    - cbn [Fixed.units]. change ("-" =? "-")%char with true. cbv iota.
      rewrite Hunsigned. unfold n. lia.
    - destruct (digits_head (Z.to_nat (Z.log2 n)) (n / 10 ^ 8)
                  (String "." (Fixed.lowDigits 8 (n mod 10 ^ 8) "")))
        as (m & tail & Hhead).
      rewrite Hhead in *. cbn [Fixed.units].
      destruct (digit_spec m) as (_ & Hminus & _). rewrite Hminus.
      rewrite Hunsigned. unfold n. lia. }
  split; [apply Hread|].
  intros other Hsame. rewrite <- (Hread other), Hsame. apply Hread.
Qed.

Section AccountCreation.

Lemma trimStartChars_head (l : list ascii) :
  match trimStartChars l with
  | [] => True
  | c :: _ => isWhiteSpace c = false
  end.
Proof.
  induction l as [|c l IH]; simpl; [exact I|].
  destruct (isWhiteSpace c) eqn:Hc; [exact IH | exact Hc].
Qed.

Lemma trimStartChars_suffix (l : list ascii) :
  exists blanks, l = blanks ++ trimStartChars l.
Proof.
  induction l as [|c l [blanks IH]]; simpl.
  - now exists [].
  - destruct (isWhiteSpace c).
    + exists (c :: blanks). simpl. now rewrite <- IH.
    + now exists [].
Qed.

Lemma last_app_single (l : list ascii) (c d : ascii) : last (l ++ [c]) d = c.
Proof.
  induction l as [|x l IH]; simpl; [reflexivity|].
  destruct (l ++ [c]) eqn:Happ; [now destruct l | exact IH].
Qed.

Lemma trim_not_padded (s : string) : padded (trim s) = false.
Proof.
  unfold padded, trim. rewrite list_ascii_of_string_of_list_ascii.
  set (front := trimStartChars (list_ascii_of_string s)).
  pose proof (trimStartChars_head (list_ascii_of_string s)) as Hfront.
  fold front in Hfront.
  pose proof (trimStartChars_head (rev front)) as Hback.
  destruct (trimStartChars_suffix (rev front)) as [blanks Hsuffix].
  destruct (trimStartChars (rev front)) as [|c back]; [reflexivity|].
  assert (Hsplit : front = rev back ++ c :: rev blanks).
  { rewrite <- (rev_involutive front), Hsuffix, rev_app_distr. simpl.
    now rewrite <- app_assoc. }
  simpl. destruct (rev back) as [|x kept] eqn:Hkept.
  - simpl. now rewrite Hback.
  - simpl. rewrite last_app_single, Hback, orb_false_r.
    rewrite Hsplit in Hfront. exact Hfront.
Qed.

Lemma upperAscii_not_lower (c : ascii) : isLowerAscii (upperAscii c) = false.
Proof.
  unfold upperAscii, isLowerAscii.
  destruct ((97 <=? nat_of_ascii c)%nat && (nat_of_ascii c <=? 122)%nat) eqn:Hlower;
    [|exact Hlower].
  apply andb_true_iff in Hlower. destruct Hlower as [Hlo Hhi].
  apply Nat.leb_le in Hlo. apply Nat.leb_le in Hhi.
  rewrite nat_ascii_embedding by lia.
  apply andb_false_iff. left. apply Nat.leb_gt. lia.
Qed.

Lemma toUpperCase_not_lower (s : string) (c : ascii) :
  In c (list_ascii_of_string (toUpperCase s)) -> isLowerAscii c = false.
Proof.
  induction s as [|x s IH]; simpl; [intros []|].
  intros [<-|Hc]; [apply upperAscii_not_lower | now apply IH].
Qed.

End AccountCreation.

(** The account [POST /accounts] hands over for creation has an owner and a
    type that are not empty and neither begin nor end with white space, the
    trimmed texts of the request; a currency of three characters, none of
    them a lower-case letter; and a zero balance. *)
Theorem created_account_is_normalised (body : AccountBody.t) (data : AccountData.t) :
  postAccounts_data body = inr data ->
  (exists userId accountType currency,
     AccountBody.userId body = Some userId
     /\ AccountBody.accountType body = Some accountType
     /\ AccountBody.currency body = Some currency
     /\ AccountData.userId data = trim userId
     /\ AccountData.accountType data = trim accountType
     /\ AccountData.currency data = toUpperCase currency)
  /\ AccountData.userId data <> ""
  /\ padded (AccountData.userId data) = false
  /\ AccountData.accountType data <> ""
  /\ padded (AccountData.accountType data) = false
  /\ String.length (AccountData.currency data) = 3%nat
  /\ (forall c, In c (list_ascii_of_string (AccountData.currency data)) ->
        isLowerAscii c = false)
  /\ AccountData.balance data = 0.
Proof.
  unfold postAccounts_data.
  destruct (falsy (AccountBody.userId body) || falsy (AccountBody.accountType body)
            || falsy (AccountBody.currency body)); [discriminate|].
  destruct (AccountBody.userId body) as [userId|],
    (AccountBody.accountType body) as [accountType|],
    (AccountBody.currency body) as [cur|]; try discriminate.
  destruct (String.eqb_spec (trim userId) "") as [|Huser]; [discriminate|].
  destruct (String.eqb_spec (trim accountType) "") as [|Htype]; [discriminate|].
  destruct (String.length cur =? 3)%nat eqn:Hlen; [|discriminate].
  simpl. intros Hdata. injection Hdata as <-. simpl.
  apply Nat.eqb_eq in Hlen.
  repeat split; auto using trim_not_padded.
  - exists userId, accountType, cur. auto 7.
  - now rewrite toUpperCase_length.
  - apply toUpperCase_not_lower.
Qed.

Lemma created_account_is_normalised_witness :
  let data := AccountData.mk "john_doe" "checking" "USD" 0 in
  (exists userId accountType currency,
     AccountBody.userId
       (AccountBody.mk (Some "  john_doe ") (Some "checking") (Some "usd"))
     = Some userId
     /\ AccountBody.accountType
          (AccountBody.mk (Some "  john_doe ") (Some "checking") (Some "usd"))
        = Some accountType
     /\ AccountBody.currency
          (AccountBody.mk (Some "  john_doe ") (Some "checking") (Some "usd"))
        = Some currency
     /\ AccountData.userId data = trim userId
     /\ AccountData.accountType data = trim accountType
     /\ AccountData.currency data = toUpperCase currency)
  /\ AccountData.userId data <> ""
  /\ padded (AccountData.userId data) = false
  /\ AccountData.accountType data <> ""
  /\ padded (AccountData.accountType data) = false
  /\ String.length (AccountData.currency data) = 3%nat
  /\ (forall c, In c (list_ascii_of_string (AccountData.currency data)) ->
        isLowerAscii c = false)
  /\ AccountData.balance data = 0.
Proof.
  intros data.
  apply (created_account_is_normalised
           (AccountBody.mk (Some "  john_doe ") (Some "checking") (Some "usd")) data).
  reflexivity.
Defined.

(** [POST /accounts] answers 400 to a body whose owner or type is missing,
    empty or made of white space only, whatever the rest of the body. *)
Theorem blank_account_fields_rejected (body : AccountBody.t) :
  match AccountBody.userId body with Some userId => trim userId = "" | None => True end
  \/ match AccountBody.accountType body with
     | Some accountType => trim accountType = ""
     | None => True
     end ->
  exists message, postAccounts_data body = inl (AccountError 400 message).
Proof.
  unfold postAccounts_data.
  destruct (falsy (AccountBody.userId body) || falsy (AccountBody.accountType body)
            || falsy (AccountBody.currency body)); [eauto|].
  destruct (AccountBody.userId body) as [userId|],
    (AccountBody.accountType body) as [accountType|],
    (AccountBody.currency body) as [cur|]; eauto.
  intros [Hblank|Hblank].
  - rewrite Hblank. simpl. eauto.
  - destruct (trim userId =? "")%string; [eauto|].
    rewrite Hblank. simpl. eauto.
Qed.

Lemma blank_account_fields_rejected_witness :
  exists message,
    postAccounts_data (AccountBody.mk (Some "   ") (Some "checking") (Some "USD"))
    = inl (AccountError 400 message).
Proof.
  apply (blank_account_fields_rejected
           (AccountBody.mk (Some "   ") (Some "checking") (Some "USD"))).
  left. reflexivity.
Defined.
(** The foreign keys of the ledger are kept by a transfer, whatever its
    outcome: every entry still refers to an account and to a transaction row
    that exist. *)
Theorem transfer_keeps_foreign_keys
    (defaults : Defaults) (source dest : string) (amount : Decimal.t)
    (currency : string) (s : Store) :
  foreignKeys (db s) ->
  foreignKeys (db (snd (transfer defaults source dest amount currency s))).
Proof. apply transfer_preserves_foreignKeys. Qed.

Lemma transfer_keeps_foreign_keys_witness :
  foreignKeys
    (db (snd (transfer Example.defaults Example.accountA Example.accountB
                (Decimal.Finite 4000 2) "USD" Example.hundred))).
Proof.
  apply (transfer_keeps_foreign_keys Example.defaults Example.accountA
           Example.accountB (Decimal.Finite 4000 2) "USD" Example.hundred).
  intros e [He|[]]. subst e. split; reflexivity.
Defined.

(** A committed transfer lowers the sum of the ledger of the account its
    source identifier names and raises that of the account its destination
    identifier names by the same amount, the one recorded on the transaction
    row; when the two identifiers name one account, its sum is as before. *)
Theorem committed_transfer_moves_recorded_amount
    (defaults : Defaults) (source dest : string) (amount : Decimal.t)
    (currency : string) (s s' : Store) (tx : Transaction.t) (a b : string) :
  transfer defaults source dest amount currency s = (inr tx, s') ->
  Uuid.parse source = Some a ->
  Uuid.parse dest = Some b ->
  (a <> b ->
   Spec.balance a (db s') = Spec.balance a (db s) - Transaction.amount tx
   /\ Spec.balance b (db s') = Spec.balance b (db s) + Transaction.amount tx)
  /\ (a = b -> Spec.balance a (db s') = Spec.balance a (db s)).
Proof.
  intros Hrun Hsource Hdest.
  destruct (committed_balances defaults source dest amount currency s s' tx Hrun)
    as (a' & b' & Ha' & Hb' & _ & _ & Hmoved & Hself).
  rewrite Hsource in Ha'. injection Ha' as <-.
  rewrite Hdest in Hb'. injection Hb' as <-.
  unfold Spec.balance. split.
  - intros Hdiff. destruct (Hmoved Hdiff) as [HA HB].
    rewrite !runningTotal_sums in HA, HB. lia.
  - intros Heq. specialize (Hself Heq). rewrite !runningTotal_sums in Hself. lia.
Qed.

Lemma committed_transfer_moves_recorded_amount_witness :
  let tx := transactionRow Example.defaults Example.accountA Example.accountB
              "USD" 4000000000 in
  let s' := snd (transfer Example.defaults Example.upperA Example.accountB
                   (Decimal.Finite 4000 2) "USD" Example.busy) in
  (Example.accountA <> Example.accountB ->
   Spec.balance Example.accountA (db s')
   = Spec.balance Example.accountA (db Example.busy) - Transaction.amount tx
   /\ Spec.balance Example.accountB (db s')
      = Spec.balance Example.accountB (db Example.busy) + Transaction.amount tx)
  /\ (Example.accountA = Example.accountB ->
      Spec.balance Example.accountA (db s')
      = Spec.balance Example.accountA (db Example.busy)).
Proof.
  intros tx s'.
  apply (committed_transfer_moves_recorded_amount Example.defaults
           Example.upperA Example.accountB (Decimal.Finite 4000 2) "USD"
           Example.busy s' tx Example.accountA Example.accountB).
  - vm_compute. reflexivity.
  - reflexivity.
  - reflexivity.
Defined.
